(** * parse-bookmarks: the extractor, the tree builder and the serializer

    A shallow embedding of [parse-bookmarks.go], which turns a bookmark
    file exported by a browser into one JSON tree.  The repository holds
    three revisions of the program.  They share [Bookmark], [parseTime],
    [buildTree] and [buildSubTree]; two of them collect the extracted
    folder records in a slice, in document order, the third one in a Go map
    keyed by the folder title (and one of the first two prints its two
    messages with a capital first letter).

    Conventions of the embedding:
    - a Go [string] is a sequence of bytes, here [string];
    - [*time.Time] is [option Time], [nil] being [None];
    - a slice [[]Bookmark] is a [list Bookmark] (nothing in the program
      tells a nil slice from an empty one);
    - what the program prints is collected in a list of [Line]s, in order;
    - the input is the document as [goquery.NewDocumentFromReader] returns
      it; reading the file and parsing the HTML are not modelled;
    - [time.Local] is a parameter of [main];
    - [buildSubTree] recurses without a bound, so its embedding takes a
      fuel (the depth of recursion allowed) and answers [None] when the
      fuel does not suffice.

    The definitions come first, the properties after them. *)

From Stdlib Require Import ZArith Ascii String.
From stdpp Require Import gmap strings list fin_maps.

Local Open Scope string_scope.
Local Open Scope list_scope.

(** ** The data model *)

(** [time.Time] as built by [time.Unix(ts, 0)]: the instant [ts] seconds
    after 1970-01-01T00:00:00Z. *)
Definition Time := Z.

(** [type Bookmark struct].  The JSON tags are modelled by [marshal]. *)
#[local] Unset Elimination Schemes.
Inductive Bookmark : Type := mkBookmark {
  Title : string;
  URL : string;
  Parent : string;
  Bookmarks : list Bookmark;
  AddAt : option Time;
  UpdateAt : option Time
}.
#[local] Set Elimination Schemes.

(** The zero value [Bookmark{}]. *)
Definition zeroBookmark : Bookmark := mkBookmark "" "" "" [] None None.

(** [parent.Bookmarks = append(parent.Bookmarks, b)]. *)
Definition appendChild (parent b : Bookmark) : Bookmark :=
  mkBookmark (Title parent) (URL parent) (Parent parent)
             (Bookmarks parent ++ [b]) (AddAt parent) (UpdateAt parent).

(** A JSON text as [encoding/json] lays it out: objects keep the order of
    their members. *)
#[local] Unset Elimination Schemes.
Inductive JSON : Type :=
| JString (s : string)
| JArray (items : list JSON)
| JObject (members : list (string * JSON)).
#[local] Set Elimination Schemes.

(** ** Standard output *)

Inductive NumErrKind : Type := ErrSyntax | ErrRange.

(** A line written to standard output: a plain message; a message followed
    by the text of a [*strconv.NumError], kept structured ([Func], [Num],
    [Err]); the JSON text of the tree; or "error converting to JSON: "
    followed by the error of [json.Marshal]. *)
Inductive Line : Type :=
| LText (msg : string)
| LNumError (msg : string) (func : string) (num : string) (err : NumErrKind)
| LJSON (j : JSON)
| LConvertError.

(** A computation that prints: its value and the lines printed. *)
Definition Out (A : Type) : Type := A * list Line.

Definition ret {A} (a : A) : Out A := (a, []).

Definition bind {A B} (m : Out A) (f : A -> Out B) : Out B :=
  ((f m.1).1, m.2 ++ (f m.1).2).

Notation "'do' x <- m ; k" := (bind m (fun x => k))
  (at level 10, x name, m at level 100, k at level 200).

Arguments bind : simpl never.

(** ** The Go library functions the program calls *)

(** [strconv.ParseInt(s, 10, 64)], after the Go source: an optional sign,
    then [ParseUint] on the rest, which reads decimal digits left to right
    and stops at the first byte that is no digit (syntax error) or at the
    first digit that takes the value above [2^64 - 1] (range error),
    whichever comes first; then the range of [int64] is checked. *)
Module strconv.
Local Open Scope Z_scope.

Definition byte (c : ascii) : Z := Z.of_N (N_of_ascii c).

Definition isDigit (c : ascii) : bool :=
  (48 <=? byte c) && (byte c <=? 57).

Definition maxUint64 : Z := 2 ^ 64 - 1.

(** The loop of [ParseUint] in base 10, [n] being the value read so far.
    Go tests [n >= cutoff] before [n *= 10] and [n1 < n || n1 > maxVal]
    after [n1 := n + d], on [uint64]; on [Z] the second test is
    [n1 > maxUint64]. *)
Fixpoint parseUintLoop (s : string) (n : Z) : NumErrKind + Z :=
  match s with
  | EmptyString => inr n
  | String c s' =>
      if isDigit c then
        if n >=? maxUint64 / 10 + 1 then inl ErrRange
        else
          let n1 := n * 10 + (byte c - 48) in
          if n1 >? maxUint64 then inl ErrRange else parseUintLoop s' n1
      else inl ErrSyntax
  end.

Definition ParseUint (s : string) : NumErrKind + Z :=
  match s with
  | EmptyString => inl ErrSyntax
  | _ => parseUintLoop s 0
  end.

(** The second component tells a leading minus sign. *)
Definition splitSign (s : string) : string * bool :=
  match s with
  | String "+" s' => (s', false)
  | String "-" s' => (s', true)
  | _ => (s, false)
  end.

Definition ParseInt (s : string) : NumErrKind + Z :=
  match s with
  | EmptyString => inl ErrSyntax
  | _ =>
      let '(digits, neg) := splitSign s in
      match ParseUint digits with
      | inl ErrSyntax => inl ErrSyntax
      | inl ErrRange => inl ErrRange
      | inr un =>
          if negb neg && (un >=? 2 ^ 63) then inl ErrRange
          else if neg && (un >? 2 ^ 63) then inl ErrRange
          else inr (if neg then - un else un)
      end
  end.
End strconv.

(** [time]: the instant of [time.Unix], and the text [Time.MarshalJSON]
    gives it (RFC 3339 in the location of the value).  [time.Unix] sets
    the location to [time.Local], which depends on the machine: a location
    is modelled by its offset from UTC, in seconds, at each instant. *)
Module time.
Local Open Scope Z_scope.

Definition Location := Z -> Z.
Definition UTC : Location := fun _ => 0.
Definition FixedZone (offset : Z) : Location := fun _ => offset.

Definition Unix (sec : Z) : Time := sec.

(** Year, month and day of a number of days since 1970-01-01 in the
    proleptic Gregorian calendar. *)
Definition civilFromDays (days : Z) : Z * Z * Z :=
  let z := days + 719468 in
  let era := z / 146097 in
  let doe := z - era * 146097 in
  let yoe := (doe - doe / 1460 + doe / 36524 - doe / 146096) / 365 in
  let doy := doe - (365 * yoe + yoe / 4 - yoe / 100) in
  let mp := (5 * doy + 2) / 153 in
  let d := doy - (153 * mp + 2) / 5 + 1 in
  let m := if mp <? 10 then mp + 3 else mp - 9 in
  let y := yoe + era * 400 + (if m <=? 2 then 1 else 0) in
  (y, m, d).

(** Date and clock of an instant in a location. *)
Record Civil := mkCivil {
  year : Z; month : Z; day : Z; hour : Z; minute : Z; second : Z
}.

Definition civil (loc : Location) (t : Time) : Civil :=
  let wall := t + loc t in
  let '(y, m, d) := civilFromDays (wall / 86400) in
  let s := wall mod 86400 in
  mkCivil y m d (s / 3600) (s mod 3600 / 60) (s mod 60).

Definition digit (n : Z) : ascii := ascii_of_N (Z.to_N (48 + n mod 10)).

Definition num2 (n : Z) : string :=
  String (digit (n / 10)) (String (digit n) EmptyString).

Definition num4 (n : Z) : string :=
  String (digit (n / 1000)) (String (digit (n / 100)) (num2 n)).

(** The zone suffix: [Z] at offset zero, else the sign, hours and
    minutes of the offset. *)
Definition zoneSuffix (offset : Z) : string :=
  if offset =? 0 then "Z"
  else
    let zone := Z.quot offset 60 in
    let sign := if zone <? 0 then "-" else "+" in
    let zone := Z.abs zone in
    sign +:+ num2 (zone / 60) +:+ ":" +:+ num2 (zone mod 60).

(** The hours written in the zone suffix of an offset. *)
Definition zoneHours (offset : Z) : Z := Z.abs (Z.quot offset 60) / 60.

(** [Time.MarshalJSON], without the quotes.  It formats the instant and
    then refuses ([None]) a text that is no RFC 3339 timestamp: a year
    that is not four digits wide, so outside [0, 9999], or a zone whose
    hours are not below 24. *)
Definition formatRFC3339 (loc : Location) (t : Time) : option string :=
  let c := civil loc t in
  if (year c <? 0) || (9999 <? year c) then None
  else if 24 <=? zoneHours (loc t) then None
  else Some (num4 (year c) +:+ "-" +:+ num2 (month c) +:+ "-" +:+ num2 (day c)
             +:+ "T" +:+ num2 (hour c) +:+ ":" +:+ num2 (minute c) +:+ ":"
             +:+ num2 (second c) +:+ zoneSuffix (loc t)).

Arguments FixedZone offset%_Z.
Arguments Unix sec%_Z.
Arguments civil loc t%_Z.
Arguments formatRFC3339 loc t%_Z.
End time.

(** [golang.org/x/net/html]: the tree the parser returns.  Tag names and
    attribute keys come out of the parser in lower case. *)
Module html.
#[local] Unset Elimination Schemes.
Inductive Node : Type :=
| ElementNode (Data : string) (Attr : list (string * string))
              (children : list Node)
| TextNode (Data : string)
| CommentNode (Data : string)
| DoctypeNode (Data : string).
#[local] Set Elimination Schemes.

Definition isElement (n : Node) : bool :=
  match n with ElementNode _ _ _ => true | _ => false end.
End html.

(** [goquery]: a selection is a list of nodes of a document.  A node is
    designated by its position: the index among the children of its
    parent, followed by the position of the parent; the empty position is
    the document node itself.  The methods are those the program calls;
    where goquery removes duplicates from a result, every call of the
    program is on a selection of at most one node, which yields none. *)
Module goquery.
Import html.

Definition Document := list Node.
Definition Loc := list nat.

Record Selection := mkSelection { document : Document; Nodes : list Loc }.

(** [goquery.NewDocumentFromReader]: the selection of the document node. *)
Definition NewDocument (doc : Document) : Selection := mkSelection doc [[]].

Fixpoint nodeAtPath (ns : list Node) (path : list nat) : option Node :=
  match path with
  | [] => None
  | i :: rest =>
      match ns !! i with
      | Some n =>
          match rest with
          | [] => Some n
          | _ => match n with
                 | ElementNode _ _ kids => nodeAtPath kids rest
                 | _ => None
                 end
          end
      | None => None
      end
  end.

Definition nodeAt (doc : Document) (loc : Loc) : option Node :=
  nodeAtPath doc (rev loc).

(** [n.FirstChild], [n.FirstChild.NextSibling], ... *)
Definition childrenAt (doc : Document) (loc : Loc) : list Node :=
  match loc with
  | [] => doc
  | _ => match nodeAt doc loc with
         | Some (ElementNode _ _ kids) => kids
         | _ => []
         end
  end.

(** The indices, from [i] on, of the element nodes of a list of
    siblings. *)
Fixpoint elementsFrom (i : nat) (ns : list Node) : list nat :=
  match ns with
  | [] => []
  | n :: rest =>
      (if isElement n then [i] else []) ++ elementsFrom (S i) rest
  end.

Definition lowerByte (c : ascii) : ascii :=
  let n := N_of_ascii c in
  if (65 <=? n)%N && (n <=? 90)%N then ascii_of_N (n + 32) else c.

Fixpoint toLowerASCII (s : string) : string :=
  match s with
  | EmptyString => EmptyString
  | String c s' => String (lowerByte c) (toLowerASCII s')
  end.

(** A type selector such as ["H3"]: cascadia puts the name in lower
    case and compares it with the tag of an element node. *)
Definition matchNode (selector : string) (n : Node) : bool :=
  match n with
  | ElementNode tag _ _ => String.eqb tag (toLowerASCII selector)
  | _ => false
  end.

Definition matchLoc (doc : Document) (selector : string) (loc : Loc) : bool :=
  match nodeAt doc loc with
  | Some n => matchNode selector n
  | None => false
  end.

(** The node at [loc] if it matches, then its matching descendants, in
    document order. *)
Fixpoint matchAll (selector : string) (loc : Loc) (n : Node) : list Loc :=
  (if matchNode selector n then [loc] else [])
  ++ match n with
     | ElementNode _ _ kids =>
         (fix go (i : nat) (ns : list Node) : list Loc :=
            match ns with
            | [] => []
            | c :: rest => matchAll selector (i :: loc) c ++ go (S i) rest
            end) 0%nat kids
     | _ => []
     end.

Fixpoint matchAllFrom (selector : string) (loc : Loc) (i : nat)
         (ns : list Node) : list Loc :=
  match ns with
  | [] => []
  | c :: rest =>
      matchAll selector (i :: loc) c ++ matchAllFrom selector loc (S i) rest
  end.

(** [s.Find(selector)]: the matching descendants of the nodes of [s]. *)
Definition Find (s : Selection) (selector : string) : Selection :=
  mkSelection (document s)
    (flat_map (fun loc => matchAllFrom selector loc 0
                            (childrenAt (document s) loc)) (Nodes s)).

(** [s.Each(f)] calls [f] on the selection of each node in turn. *)
Definition each (s : Selection) : list Selection :=
  (fun loc => mkSelection (document s) [loc]) <$> Nodes s.

Fixpoint textOf (n : Node) : string :=
  match n with
  | TextNode data => data
  | ElementNode _ _ kids =>
      (fix go (ns : list Node) : string :=
         match ns with
         | [] => EmptyString
         | c :: rest => textOf c +:+ go rest
         end) kids
  | _ => EmptyString
  end.

(** [s.Text()]: the text nodes under the nodes of [s], concatenated. *)
Definition Text (s : Selection) : string :=
  foldr (fun loc acc =>
           match nodeAt (document s) loc with
           | Some n => textOf n +:+ acc
           | None => acc
           end) EmptyString (Nodes s).

Fixpoint attrLookup (key : string) (attrs : list (string * string))
  : option string :=
  match attrs with
  | [] => None
  | (k, v) :: rest => if String.eqb k key then Some v else attrLookup key rest
  end.

(** [s.AttrOr(name, defaultValue)]: the attribute of the first node. *)
Definition AttrOr (s : Selection) (name defaultValue : string) : string :=
  match Nodes s with
  | [] => defaultValue
  | loc :: _ =>
      match nodeAt (document s) loc with
      | Some (ElementNode _ attrs _) =>
          default defaultValue (attrLookup name attrs)
      | _ => defaultValue
      end
  end.

(** [s.Is(selector)]: some node of [s] matches. *)
Definition Is (s : Selection) (selector : string) : bool :=
  existsb (matchLoc (document s) selector) (Nodes s).

(** [s.Children()]: the element children of the nodes of [s]. *)
Definition Children (s : Selection) : Selection :=
  mkSelection (document s)
    (flat_map (fun loc => (fun i => i :: loc)
                            <$> elementsFrom 0 (childrenAt (document s) loc))
              (Nodes s)).

Definition ChildrenFiltered (s : Selection) (selector : string) : Selection :=
  mkSelection (document s)
    (List.filter (matchLoc (document s) selector) (Nodes (Children s))).

Definition First (s : Selection) : Selection :=
  mkSelection (document s) (take 1 (Nodes s)).

(** [s.Parent()]: the parent of each node, when it is an element (the
    parent of a top-level node is the document node, which is none). *)
Definition Parent (s : Selection) : Selection :=
  mkSelection (document s)
    (flat_map (fun loc => match loc with
                          | _ :: ((_ :: _) as up) => [up]
                          | _ => []
                          end) (Nodes s)).

(** [s.Next()] and [s.Prev()]: the nearest following, respectively
    preceding, sibling that is an element. *)
Definition Next (s : Selection) : Selection :=
  mkSelection (document s)
    (flat_map (fun loc =>
                 match loc with
                 | i :: up =>
                     (fun j => j :: up)
                       <$> take 1 (List.filter (fun j => i <? j)%nat
                                     (elementsFrom 0 (childrenAt (document s) up)))
                 | [] => []
                 end) (Nodes s)).

Definition Prev (s : Selection) : Selection :=
  mkSelection (document s)
    (flat_map (fun loc =>
                 match loc with
                 | i :: up =>
                     (fun j => j :: up)
                       <$> take 1 (rev (List.filter (fun j => j <? i)%nat
                                     (elementsFrom 0 (childrenAt (document s) up))))
                 | [] => []
                 end) (Nodes s)).
End goquery.

(** ** [parseTime] *)

(** [parseTime(timestamp)]: the instant, and what is printed. *)
Definition parseTime (timestamp : string) : Out (option Time) :=
  if (String.length timestamp =? 0)%nat then (None, [])
  else
    match strconv.ParseInt timestamp with
    | inl err =>
        (None, [LNumError "error parsing timestamp:" "ParseInt" timestamp err])
    | inr ts => (Some (time.Unix ts), [])
    end.

(** ** The extractor *)

(** The [Bookmark] literal built for a link element [aNode]. *)
Definition linkBookmark (aNode : goquery.Selection) : Out Bookmark :=
  do addAt <- parseTime (goquery.AttrOr aNode "add_date" "");
  do updateAt <- parseTime (goquery.AttrOr aNode "last_modified" "");
  ret (mkBookmark (goquery.Text aNode) (goquery.AttrOr aNode "href" "") "" [] addAt updateAt).

(** The callback of [dlNode.ChildrenFiltered("DT").Each]: [bookmarks] is
    the slice of links gathered so far. *)
Fixpoint eachDT (dtNodes : list goquery.Selection) (bookmarks : list Bookmark)
  : Out (list Bookmark) :=
  match dtNodes with
  | [] => ret bookmarks
  | dtNode :: rest =>
      let aNode := goquery.First (goquery.Children dtNode) in
      if goquery.Is aNode "A" then
        do bookmark <- linkBookmark aNode;
        eachDT rest (bookmarks ++ [bookmark])
      else eachDT rest bookmarks
  end.

(** The body of the callback of [doc.Find("H3").Each], up to the record
    appended: title and timestamps of the header, the links of the [DL]
    that follows it, the title of the enclosing folder. *)
Definition folderBookmark (header : goquery.Selection) : Out Bookmark :=
  do addAt <- parseTime (goquery.AttrOr header "add_date" "");
  do updateAt <- parseTime (goquery.AttrOr header "last_modified" "");
  do links <- (let dlNode := goquery.Next header in
               if goquery.Is dlNode "DL"
               then eachDT (goquery.each (goquery.ChildrenFiltered dlNode "DT")) []
               else ret []);
  let parentDL := goquery.Parent (goquery.Parent header) in
  let parent := if goquery.Is parentDL "DL" && goquery.Is (goquery.Prev parentDL) "H3"
                then goquery.Text (goquery.Prev parentDL) else "" in
  ret (mkBookmark (goquery.Text header) "" parent links addAt updateAt).

Fixpoint eachH3 (headers : list goquery.Selection) (bookmarks : list Bookmark)
  : Out (list Bookmark) :=
  match headers with
  | [] => ret bookmarks
  | header :: rest =>
      do bookmark <- folderBookmark header;
      eachH3 rest (bookmarks ++ [bookmark])
  end.

(** [parseBookmarks] of the revisions that keep a slice. *)
Definition parseBookmarks (doc : goquery.Selection) : Out (list Bookmark) :=
  eachH3 (goquery.each (goquery.Find doc "H3")) [].

(** [parseBookmarks] of the revision that keeps a map: the loop stores each
    record under its title, [bookmarkMap[bookmark.Title] = &bookmark]. *)
Fixpoint eachH3Map (headers : list goquery.Selection)
         (bookmarkMap : gmap string Bookmark) : Out (gmap string Bookmark) :=
  match headers with
  | [] => ret bookmarkMap
  | header :: rest =>
      do bookmark <- folderBookmark header;
      eachH3Map rest (<[Title bookmark := bookmark]> bookmarkMap)
  end.

Definition parseBookmarksMap (doc : goquery.Selection) : Out (gmap string Bookmark) :=
  eachH3Map (goquery.each (goquery.Find doc "H3")) ∅.

(** [for _, bookmark := range bookmarkMap]: Go leaves the order of the
    iteration over a map unspecified, and it varies from one run to the
    next; [bookmarks] is a slice the loop may produce. *)
Definition rangeOrder (bookmarkMap : gmap string Bookmark)
           (bookmarks : list Bookmark) : Prop :=
  bookmarks ≡ₚ (map_to_list bookmarkMap).*2.

(** ** Serialization *)

(** A member guarded by [omitempty]. *)
Definition omitempty {A} (empty : bool) (key : string) (v : A) : list (string * A) :=
  if empty then [] else [(key, v)].

(** [json.Marshal] on a [Bookmark], following the struct tags: [title]
    always, [url] unless empty, no member for [Parent] (tag [json:"-"]),
    [bookmarks] unless of length zero, [addAt] and [updateAt] unless nil.
    [None] is the error of [Time.MarshalJSON]. *)
Fixpoint marshal (loc : time.Location) (b : Bookmark) : option JSON :=
  kids ← mapM (marshal loc) (Bookmarks b);
  addAt ← match AddAt b with
          | None => Some []
          | Some t => s ← time.formatRFC3339 loc t; Some [("addAt", JString s)]
          end;
  updateAt ← match UpdateAt b with
             | None => Some []
             | Some t => s ← time.formatRFC3339 loc t; Some [("updateAt", JString s)]
             end;
  Some (JObject ([("title", JString (Title b))]
                 ++ omitempty (String.eqb (URL b) "") "url" (JString (URL b))
                 ++ omitempty (length (Bookmarks b) =? 0)%nat "bookmarks" (JArray kids)
                 ++ addAt ++ updateAt)).

(** The member names of a JSON text, at every depth. *)
Fixpoint keys (j : JSON) : list string :=
  match j with
  | JString _ => []
  | JArray items => flat_map keys items
  | JObject members => flat_map (fun m => m.1 :: keys m.2) members
  end.

(** ** The tree builder *)

(** [findRootFolder]: the first record whose [Parent] is empty. *)
Fixpoint findRootFolder (bookmarks : list Bookmark) : option Bookmark :=
  match bookmarks with
  | [] => None
  | b :: rest => if String.eqb (Parent b) "" then Some b else findRootFolder rest
  end.

(** The body of [buildSubTree]: the loop [for i := range bookmarks] over the
    records still to visit ([rest]), [rec] being the recursive call on the
    freshly appended copy. *)
Fixpoint scanChildren (rec : Bookmark -> option Bookmark)
         (rest : list Bookmark) (parent : Bookmark) : option Bookmark :=
  match rest with
  | [] => Some parent
  | b :: rest' =>
      if String.eqb (Parent b) (Title parent) then
        match rec b with
        | Some child => scanChildren rec rest' (appendChild parent child)
        | None => None
        end
      else scanChildren rec rest' parent
  end.

(** [buildSubTree(parent, bookmarks)], returning the parent as the call
    leaves it.  The Go code updates [parent] in place; the copy appended to
    [parent.Bookmarks] is completed by the recursive call, through the
    pointer [&parent.Bookmarks[len(parent.Bookmarks)-1]], before the loop
    goes on, which is what [scanChildren] computes.

    Aliasing.  Each record of [bookmarks] owns the array of its
    [Bookmarks] slice, as [parseBookmarks] builds them.  [bookmarks[i]] is
    copied by value, and the copy shares that array with the record.  The title and
    the parent title of a record never change, so the calls made are those
    of the embedding.  An [append] through a copy reallocates or writes
    past the length of the record's slice: the records of [bookmarks] keep
    their value, except the root, which [buildTree] passes as a pointer
    into [bookmarks] and which therefore grows in place.  Two things could
    make the result differ from the one computed here on values:
    - the scan copying the root while it grows, which takes a placed node
      with an empty title; then the root is adopted again under one of its
      own descendants and the recursion has no end
      ([trace_titles_nonempty]);
    - two copies of one record writing the same spare slot of the shared
      array; the later copy writes the same children in the same order,
      and completes them to the same value, unless it lies under the
      earlier one, which again is a title cycle.
    So a call that returns leaves the value computed here; a call that
    does not return is [None] for every fuel. *)
Fixpoint buildSubTree (fuel : nat) (parent : Bookmark)
         (bookmarks : list Bookmark) : option Bookmark :=
  match fuel with
  | O => None
  | S fuel' =>
      scanChildren (fun b => buildSubTree fuel' b bookmarks) bookmarks parent
  end.

(** [buildTree]: what is printed, and the node returned. *)
Definition buildTree (fuel : nat) (bookmarks : list Bookmark)
  : option (list Line * Bookmark) :=
  match findRootFolder bookmarks with
  | None => Some ([LText "root folder not found"], zeroBookmark)
  | Some root =>
      match buildSubTree fuel root bookmarks with
      | Some tree => Some ([], tree)
      | None => None
      end
  end.

(** ** [main], from the parsed document on *)

(** The end of [main]: [json.Marshal(tree)], then the JSON text or the
    error is printed. *)
Definition printTree (Local : time.Location) (tree : Bookmark) : Line :=
  match marshal Local tree with
  | Some j => LJSON j
  | None => LConvertError
  end.

(** Everything [main] prints once the records are extracted; [None] when
    the build does not return. *)
Definition mainFrom (Local : time.Location) (fuel : nat)
           (extracted : Out (list Bookmark)) : option (list Line) :=
  match buildTree fuel extracted.1 with
  | Some (out, tree) => Some (extracted.2 ++ out ++ [printTree Local tree])
  | None => None
  end.

(** The revisions with a slice. *)
Definition main (Local : time.Location) (fuel : nat) (doc : goquery.Selection)
  : option (list Line) :=
  mainFrom Local fuel (parseBookmarks doc).

(** The revision with a map: one run for each order the iteration over
    the map may take. *)
Inductive mainMap (Local : time.Location) (fuel : nat) (doc : goquery.Selection)
  : option (list Line) -> Prop :=
| mainMap_run bookmarks :
    rangeOrder (parseBookmarksMap doc).1 bookmarks ->
    mainMap Local fuel doc
            (mainFrom Local fuel (bookmarks, (parseBookmarksMap doc).2)).

(** ** Bookmark files *)

(** The tree the HTML parser builds for a file in the Netscape bookmark
    format: under [body], a heading and a [dl]; in a [dl], an empty [p]
    and one [dt] for each entry; the [dt] of a link holds the [a]; the
    [dt] of a folder holds the [h3], the [dl] of its entries, and a [p]. *)
Module netscape.
Import html.

#[local] Unset Elimination Schemes.
Inductive Item : Type :=
| Link (attrs : list (string * string)) (title : string)
| Folder (attrs : list (string * string)) (title : string)
         (items : list Item).
#[local] Set Elimination Schemes.

(** The white space between two tags. *)
Definition blank : Node := TextNode (String (ascii_of_nat 10) "    ").

Fixpoint render (item : Item) : Node :=
  match item with
  | Link attrs title =>
      ElementNode "dt" [] [ElementNode "a" attrs [TextNode title]; blank]
  | Folder attrs title items =>
      ElementNode "dt" []
        [ElementNode "h3" attrs [TextNode title]; blank;
         ElementNode "dl" [] (ElementNode "p" [] [blank] :: map render items);
         ElementNode "p" [] [blank]]
  end.

Definition document (top : list Item) : goquery.Selection :=
  goquery.NewDocument
    [DoctypeNode "netscape-bookmark-file-1";
     ElementNode "html" []
       [ElementNode "head" []
          [ElementNode "meta" [("http-equiv", "Content-Type");
                               ("content", "text/html; charset=UTF-8")] [];
           ElementNode "title" [] [TextNode "Bookmarks"]];
        ElementNode "body" []
          [ElementNode "h1" [] [TextNode "Bookmarks"]; blank;
           ElementNode "dl" [] (ElementNode "p" [] [blank] :: map render top);
           ElementNode "p" [] [blank]]]].
End netscape.

(** ** Vocabulary of the timestamp properties *)

(** A decimal number: an optional sign, then one digit or more. *)
Definition isDecimal (s : string) : bool :=
  let digits := (strconv.splitSign s).1 in
  negb (String.eqb digits "") && forallb strconv.isDigit (list_ascii_of_string digits).

Definition isTimeKey (key : string) : bool :=
  String.eqb key "add_date" || String.eqb key "last_modified".

(** A document without its timestamp attributes. *)
Fixpoint stripTimes (n : html.Node) : html.Node :=
  match n with
  | html.ElementNode tag attrs kids =>
      html.ElementNode tag (List.filter (fun kv => negb (isTimeKey kv.1)) attrs)
                       (map stripTimes kids)
  | _ => n
  end.

Definition stripTimesDoc (s : goquery.Selection) : goquery.Selection :=
  goquery.mkSelection (stripTimes <$> goquery.document s) (goquery.Nodes s).

(** A document whose failing timestamps are emptied: a timestamp
    attribute that [parseTime] gives no instant for gets the empty
    value. *)
Definition blankFailedAttr (kv : string * string) : string * string :=
  if isTimeKey kv.1 then
    match (parseTime kv.2).1 with
    | Some _ => kv
    | None => (kv.1, "")
    end
  else kv.

Fixpoint blankFailed (n : html.Node) : html.Node :=
  match n with
  | html.ElementNode tag attrs kids =>
      html.ElementNode tag (map blankFailedAttr attrs) (map blankFailed kids)
  | _ => n
  end.

Definition blankFailedDoc (s : goquery.Selection) : goquery.Selection :=
  goquery.mkSelection (blankFailed <$> goquery.document s) (goquery.Nodes s).

(** The two timestamp attributes read from an element. *)
Definition stamps (s : goquery.Selection) : list string :=
  [goquery.AttrOr s "add_date" ""; goquery.AttrOr s "last_modified" ""].

(** The link elements visited under a header: the first element child,
    when it is an [A], of each [DT] child of the [DL] that follows the
    header. *)
Definition linkNodes (header : goquery.Selection) : list goquery.Selection :=
  if goquery.Is (goquery.Next header) "DL" then
    List.filter (fun aNode => goquery.Is aNode "A")
      ((fun dtNode => goquery.First (goquery.Children dtNode))
         <$> goquery.each (goquery.ChildrenFiltered (goquery.Next header) "DT"))
  else [].

(** The timestamps of a document, in the order of the visit: those of
    each header, then those of its links. *)
Definition timestampsRead (doc : goquery.Selection) : list string :=
  flat_map (fun header => stamps header ++ flat_map stamps (linkNodes header))
           (goquery.each (goquery.Find doc "H3")).

(** The instants of a record are those read from the element [s]. *)
Definition instantsRead (s : goquery.Selection) (b : Bookmark) : Prop :=
  AddAt b = (parseTime (goquery.AttrOr s "add_date" "")).1
  ∧ UpdateAt b = (parseTime (goquery.AttrOr s "last_modified" "")).1.

(** A record has the instants of its header, and one child for each link
    under the header, with the instants of that link. *)
Definition recordRead (header : goquery.Selection) (b : Bookmark) : Prop :=
  instantsRead header b
  ∧ Forall2 instantsRead (linkNodes header) (Bookmarks b).

(** A record without its instants, at every depth. *)
Fixpoint eraseTimes (b : Bookmark) : Bookmark :=
  mkBookmark (Title b) (URL b) (Parent b) (map eraseTimes (Bookmarks b))
             None None.

(** A tree without its parent titles, at every depth. *)
Fixpoint eraseParents (b : Bookmark) : Bookmark :=
  mkBookmark (Title b) (URL b) "" (map eraseParents (Bookmarks b))
             (AddAt b) (UpdateAt b).

(** ** Ghost state: the placement trace

    [buildSubTreeG] is [buildSubTree] with a ghost result: the records the
    builder turns into nodes of the tree, in the order it does so (the
    parent first, then, for each record appended, the trace of the call on
    its copy).  [buildSubTree_erase] shows that the node computed is the
    same. *)
Fixpoint scanChildrenG (rec : Bookmark -> option (Bookmark * list Bookmark))
         (rest : list Bookmark) (parent : Bookmark) (trace : list Bookmark)
  : option (Bookmark * list Bookmark) :=
  match rest with
  | [] => Some (parent, trace)
  | b :: rest' =>
      if String.eqb (Parent b) (Title parent) then
        match rec b with
        | Some (child, tr) =>
            scanChildrenG rec rest' (appendChild parent child) (trace ++ tr)
        | None => None
        end
      else scanChildrenG rec rest' parent trace
  end.

Fixpoint buildSubTreeG (fuel : nat) (parent : Bookmark)
         (bookmarks : list Bookmark) : option (Bookmark * list Bookmark) :=
  match fuel with
  | O => None
  | S fuel' =>
      scanChildrenG (fun b => buildSubTreeG fuel' b bookmarks)
                    bookmarks parent [parent]
  end.

(** [buildTree] with the trace of placed records (none without a root). *)
Definition buildTreeG (fuel : nat) (bookmarks : list Bookmark)
  : option (list Line * Bookmark * list Bookmark) :=
  match findRootFolder bookmarks with
  | None => Some ([LText "root folder not found"], zeroBookmark, [])
  | Some root =>
      match buildSubTreeG fuel root bookmarks with
      | Some (tree, placed) => Some ([], tree, placed)
      | None => None
      end
  end.

(** ** Vocabulary of the properties *)

(** The records a node titled [t] adopts: those whose [Parent] is [t], in
    collection order. *)
Definition matching (t : string) (bookmarks : list Bookmark) : list Bookmark :=
  filter (fun b => Parent b = t) bookmarks.

(** A record with further children appended. *)
Definition withKids (p : Bookmark) (kids : list Bookmark) : Bookmark :=
  mkBookmark (Title p) (URL p) (Parent p) (Bookmarks p ++ kids)
             (AddAt p) (UpdateAt p).

(** The nodes of a tree, in pre-order. *)
Fixpoint nodes (b : Bookmark) : list Bookmark :=
  b :: flat_map nodes (Bookmarks b).

(** A node without its children. *)
Definition shallow (b : Bookmark) : Bookmark :=
  mkBookmark (Title b) (URL b) (Parent b) [] (AddAt b) (UpdateAt b).

(** Number of nodes of a tree that carry the title [t]. *)
Definition countTitled (t : string) (tree : Bookmark) : nat :=
  length (filter (fun n => Title n = t) (nodes tree)).

(** Title linkage: [b] is a record of the collection that a node built from
    [a] adopts. *)
Definition adopts (bookmarks : list Bookmark) (a b : Bookmark) : Prop :=
  b ∈ bookmarks ∧ Parent b = Title a.

(** A collection is acyclic when no record reaches itself through title
    linkage; a record whose [Parent] is its own [Title] is a cycle of
    length one. *)
Definition acyclic (bookmarks : list Bookmark) : Prop :=
  ∀ b, ¬ tc (adopts bookmarks) b b.

Definition folder (title parent : string) (kids : list Bookmark) : Bookmark :=
  mkBookmark title "" parent kids None None.
Definition link (title url : string) : Bookmark :=
  mkBookmark title url "" [] None None.

(** ** Further vocabulary *)

(** The children a record carries before the build (the links attached by
    the extractor) have no parent title. *)
Definition inlineUnparented (bs : list Bookmark) : Prop :=
  ∀ b c, b ∈ bs -> c ∈ flat_map nodes (Bookmarks b) -> Parent c = "".

(** The member names [json.Marshal] can write for a [Bookmark]. *)
Definition jsonFields : list string :=
  ["title"; "url"; "bookmarks"; "addAt"; "updateAt"].

(** The extractor prints nothing but timestamp errors. *)
Definition isTimestampError (line : Line) : Prop :=
  match line with
  | LNumError "error parsing timestamp:" "ParseInt" _ _ => True
  | _ => False
  end.

(** The records the extractor builds from the attributes and the text of
    an element. *)
Definition attrOr (attrs : list (string * string)) (name : string) : string :=
  default "" (goquery.attrLookup name attrs).

Definition linkRecord (attrs : list (string * string)) (title : string) : Bookmark :=
  mkBookmark title (attrOr attrs "href") "" []
             (parseTime (attrOr attrs "add_date")).1
             (parseTime (attrOr attrs "last_modified")).1.

Definition folderRecord (attrs : list (string * string)) (title parent : string)
           (links : list Bookmark) : Bookmark :=
  mkBookmark title "" parent links
             (parseTime (attrOr attrs "add_date")).1
             (parseTime (attrOr attrs "last_modified")).1.

(** ** Sample collections and documents *)

Definition worksCollection : list Bookmark :=
  [folder "Root" "" []; folder "Work" "Root" [link "a" "https://a.example"];
   folder "Work" "Root" [link "b" "https://b.example"]].

Definition worksTree : Bookmark :=
  folder "Root" ""
    [folder "Work" "Root" [link "a" "https://a.example"];
     folder "Work" "Root" [link "b" "https://b.example"]].

Definition orphanCollection : list Bookmark :=
  [folder "Root" "" [link "a" "https://a.example"];
   folder "Lost" "Gone" [link "b" "https://b.example"];
   folder "Work" "Root" []].

Definition candidatesCollection : list Bookmark :=
  [folder "Work" "Root" []; folder "Root" "" [link "a" "https://a.example"];
   folder "Other" "" [link "b" "https://b.example"]].

Definition selfCycleCollection : list Bookmark :=
  [folder "Root" "" []; folder "Root" "Root" []].

Definition sampleLink : goquery.Selection :=
  goquery.mkSelection
    [html.ElementNode "a"
       [("href", "https://www.example.com"); ("add_date", "1634454300")]
       [html.TextNode "Example site"]]
    [[0%nat]].

Definition undatedLink : goquery.Selection :=
  goquery.mkSelection
    [html.ElementNode "a" [("href", "https://www.example.com")]
       [html.TextNode "Example site"]]
    [[0%nat]].

Definition readmeDocument : goquery.Selection :=
  netscape.document
    [netscape.Folder
       [("add_date", "1634454000"); ("last_modified", "1634454200");
        ("personal_toolbar_folder", "true")]
       "Bookmarks bar"
       [netscape.Link
          [("href", "https://www.example.com"); ("add_date", "1634454300");
           ("icon", "data:image/png;base64,..."); ("last_modified", "1634454320")]
          "Example site"]].

(** A root folder with two links and a subfolder of one link, the
    subfolder being the entry number [k] of the root folder. *)
Definition smallDocument (k : nat)
           (ra : list (string * string)) (R : string)
           (a1 : list (string * string)) (t1 : string)
           (a2 : list (string * string)) (t2 : string)
           (sa : list (string * string)) (S : string)
           (a3 : list (string * string)) (t3 : string) : goquery.Selection :=
  let links := [netscape.Link a1 t1; netscape.Link a2 t2] in
  let sub := netscape.Folder sa S [netscape.Link a3 t3] in
  netscape.document [netscape.Folder ra R (take k links ++ sub :: drop k links)].

(** A root folder and a subfolder with one title. *)
Definition sameTitleDocument : goquery.Selection :=
  smallDocument 2 [] "News" [("href", "https://a.example")] "a"
    [("href", "https://b.example")] "b"
    [] "News" [("href", "https://c.example")] "c".

(** A root folder with two subfolders. *)
Definition twoFoldersDocument : goquery.Selection :=
  netscape.document
    [netscape.Folder [] "Root"
       [netscape.Folder [] "A" []; netscape.Folder [] "B" []]].

Definition twoWorksDocument : goquery.Selection :=
  netscape.document
    [netscape.Folder [] "Root"
       [netscape.Folder [] "Work" [netscape.Link [("href", "https://a.example")] "a"];
        netscape.Folder [] "Work" [netscape.Link [("href", "https://b.example")] "b"]]].

(** ** Vocabulary of the further properties *)

(** The number a string of digits denotes, and the number a signed
    decimal denotes. *)
Definition decimalValue (digits : string) : Z :=
  fold_left (fun n c => (n * 10 + (strconv.byte c - 48))%Z)
            (list_ascii_of_string digits) 0%Z.

Definition signedValue (s : string) : Z :=
  let '(digits, neg) := strconv.splitSign s in
  if neg then (- decimalValue digits)%Z else decimalValue digits.

(** The range of [int64]. *)
Definition inInt64 (n : Z) : bool := ((- 2 ^ 63 <=? n) && (n <? 2 ^ 63))%Z.

(** The result of [buildSubTree], without fuel: [Built bs p t] when [t] is
    [p] with, after its own children, the results for the records that
    [p] adopts, in collection order. *)
#[local] Unset Elimination Schemes.
#[local] Set Elimination Schemes.

(** The last record of a collection with a given title. *)
Definition lastTitled (t : string) (bookmarks : list Bookmark) : option Bookmark :=
  last (filter (fun b => Title b = t) bookmarks).

(** An instant [Time.MarshalJSON] refuses in a location: its year there is
    outside [0, 9999], or the location is then a day or more away from
    UTC. *)
Definition yearOutOfRange (loc : time.Location) (t : Time) : Prop :=
  (time.year (time.civil loc t) < 0 ∨ 9999 < time.year (time.civil loc t))%Z.

Definition zoneOutOfRange (loc : time.Location) (t : Time) : Prop :=
  (86400 <= Z.abs (loc t))%Z.

Definition refused (loc : time.Location) (t : Time) : Prop :=
  yearOutOfRange loc t ∨ zoneOutOfRange loc t.

(** The records of a bookmark file, read off its entries.  First the
    records of the links among the entries of a folder. *)
Fixpoint linksOf (items : list netscape.Item) : list Bookmark :=
  match items with
  | [] => []
  | netscape.Link attrs title :: rest => linkRecord attrs title :: linksOf rest
  | netscape.Folder _ _ _ :: rest => linksOf rest
  end.

(** The records of the folders of an entry, in document order: the folder
    itself, under the title [parent] of the folder around it, then the
    folders below it. *)
Fixpoint records (parent : string) (item : netscape.Item) : list Bookmark :=
  match item with
  | netscape.Link _ _ => []
  | netscape.Folder attrs title items =>
      folderRecord attrs title parent (linksOf items)
      :: flat_map (records title) items
  end.

(** The title the extractor reads for the folder around a list that
    follows the element [X]. *)
Definition titleBefore (X : html.Node) : string :=
  if goquery.matchNode "H3" X then goquery.textOf X else "".

(** What is to be shown of an entry: wherever it is rendered, as entry
    number [i] of a list that follows [X], the records of its headers
    are its records under the title read from [X]. *)
Definition recordsRead (item : netscape.Item) : Prop :=
  ∀ D up X tail kidsdl i,
    goquery.childrenAt D up
    = X :: netscape.blank :: html.ElementNode "dl" [] kidsdl :: tail ->
    html.isElement X = true ->
    kidsdl !! i = Some (netscape.render item) ->
    (fun loc => (folderBookmark (goquery.mkSelection D [loc])).1)
      <$> goquery.matchAll "H3" (i :: 2 :: up) (netscape.render item)
    = records (titleBefore X) item.

(** The folders of an entry, each with its title and its entries, the
    entry itself first. *)
Fixpoint folders (item : netscape.Item) : list (string * list netscape.Item) :=
  match item with
  | netscape.Link _ _ => []
  | netscape.Folder _ title items => (title, items) :: flat_map folders items
  end.

(** The titles of the folders of a list of entries, at any depth. *)
Definition titles (items : list netscape.Item) : list string :=
  (flat_map folders items).*1.

(** The records of the folders that are entries of the list itself. *)
Definition heads (parent : string) (items : list netscape.Item) : list Bookmark :=
  flat_map (fun item =>
              match item with
              | netscape.Link _ _ => []
              | netscape.Folder attrs title items =>
                  [folderRecord attrs title parent (linksOf items)]
              end) items.

(** The tree of a folder: its record, its links, then the trees of its
    subfolders. *)
Fixpoint treeOf (parent : string) (item : netscape.Item) : list Bookmark :=
  match item with
  | netscape.Link _ _ => []
  | netscape.Folder attrs title items =>
      [withKids (folderRecord attrs title parent (linksOf items))
                (flat_map (treeOf title) items)]
  end.

(** Nesting depth of the folders of an entry. *)
Fixpoint depth (item : netscape.Item) : nat :=
  match item with
  | netscape.Link _ _ => 0
  | netscape.Folder _ _ items => S (max_list (map depth items))
  end.

(** What is to be shown of an entry whose folder titles differ: among
    its records, those that name one of its folders are the records of
    the subfolders of that folder. *)
Definition ownChildren (item : netscape.Item) : Prop :=
  ∀ p t its, t ≠ p -> NoDup (folders item).*1 -> (t, its) ∈ folders item ->
             matching t (records p item) = heads t its.

(** What is to be shown of an entry: given the records that name each of
    its folders, the build on its record returns its tree. *)
Definition buildsTree (item : netscape.Item) : Prop :=
  ∀ parent bs fuel,
    (∀ t its, (t, its) ∈ folders item -> matching t bs = heads t its) ->
    depth item <= fuel ->
    Forall2 (fun b tree => buildSubTree fuel b bs = Some tree)
            (heads parent [item]) (treeOf parent item).

(** A file with two folders at the top, the first with a link and a
    subfolder. *)
Definition sampleTop : list netscape.Item :=
  [netscape.Folder [("add_date", "1634454000")] "Bookmarks bar"
     [netscape.Link [("href", "https://a.example")] "a";
      netscape.Folder [] "News" [netscape.Link [("href", "https://c.example")] "c"]];
   netscape.Folder [] "Other" []].

(** * Properties *)

(** ** The tree builder *)

Lemma withKids_nil p : withKids p [] = p.
Proof. destruct p; unfold withKids; simpl. by rewrite app_nil_r. Qed.

Lemma withKids_appendChild p c kids :
  withKids (appendChild p c) kids = withKids p (c :: kids).
Proof. unfold withKids, appendChild; simpl. by rewrite <- app_assoc. Qed.

Lemma matching_cons t b bs :
  matching t (b :: bs) =
  if String.eqb (Parent b) t then b :: matching t bs else matching t bs.
Proof.
  unfold matching. rewrite filter_cons.
  destruct (String.eqb_spec (Parent b) t); by case_decide.
Qed.

(** The loop appends, in collection order, the completed copies of the
    records whose parent title is the title of [parent]. *)
Lemma scanChildren_spec rec rest p :
  scanChildren rec rest p =
  kids ← mapM rec (matching (Title p) rest); Some (withKids p kids).
Proof.
  revert p. induction rest as [|b rest IH]; intros p; simpl.
  - by rewrite withKids_nil.
  - rewrite matching_cons. destruct (String.eqb (Parent b) (Title p)); [|apply IH].
    simpl. destruct (rec b) as [child|]; [|done]. simpl.
    rewrite IH. simpl.
    destruct (mapM rec (matching (Title p) rest)) as [kids|]; [|done]. simpl.
    by rewrite withKids_appendChild.
Qed.

Lemma buildSubTree_S fuel p bs :
  buildSubTree (S fuel) p bs =
  kids ← mapM (fun b => buildSubTree fuel b bs) (matching (Title p) bs);
  Some (withKids p kids).
Proof. simpl. apply scanChildren_spec. Qed.

Lemma scanChildrenG_spec rec rest p tr :
  scanChildrenG rec rest p tr =
  rs ← mapM rec (matching (Title p) rest);
  Some (withKids p rs.*1, tr ++ concat rs.*2).
Proof.
  revert p tr. induction rest as [|b rest IH]; intros p tr; simpl.
  - by rewrite withKids_nil, app_nil_r.
  - rewrite matching_cons. destruct (String.eqb (Parent b) (Title p)); [|apply IH].
    simpl. destruct (rec b) as [[child tr']|]; [|done]. simpl.
    rewrite IH. simpl.
    destruct (mapM rec (matching (Title p) rest)) as [rs|]; [|done]. simpl.
    by rewrite withKids_appendChild, <- app_assoc.
Qed.

Lemma buildSubTreeG_S fuel p bs :
  buildSubTreeG (S fuel) p bs =
  rs ← mapM (fun b => buildSubTreeG fuel b bs) (matching (Title p) bs);
  Some (withKids p rs.*1, p :: concat rs.*2).
Proof. simpl. apply scanChildrenG_spec. Qed.

Lemma mapM_fmap_fun {A B C} (g : A -> option B) (h : B -> C) (l : list A) :
  mapM (fun x => h <$> g x) l = fmap h <$> mapM g l.
Proof.
  induction l as [|x l IH]; [done|]. simpl. rewrite IH.
  destruct (g x); [|done]. simpl. by destruct (mapM g l).
Qed.

(** The ghost trace does not change the node computed. *)
Lemma buildSubTree_erase fuel p bs :
  buildSubTree fuel p bs = fst <$> buildSubTreeG fuel p bs.
Proof.
  revert p. induction fuel as [|fuel IH]; intros p; [done|].
  rewrite buildSubTree_S, buildSubTreeG_S.
  rewrite (mapM_ext _ (fun b => fst <$> buildSubTreeG fuel b bs)) by done.
  rewrite mapM_fmap_fun.
  by destruct (mapM _ (matching (Title p) bs)).
Qed.

Lemma buildTree_erase fuel bs :
  buildTree fuel bs = fst <$> buildTreeG fuel bs.
Proof.
  unfold buildTree, buildTreeG. destruct (findRootFolder bs) as [root|]; [|done].
  rewrite buildSubTree_erase.
  by destruct (buildSubTreeG fuel root bs) as [[tree placed]|].
Qed.

(** More fuel never changes a result. *)
Lemma buildSubTreeG_mono fuel fuel' p bs r :
  buildSubTreeG fuel p bs = Some r -> fuel <= fuel' ->
  buildSubTreeG fuel' p bs = Some r.
Proof.
  revert fuel' p r. induction fuel as [|fuel IH]; intros fuel' p r; [done|].
  destruct fuel' as [|fuel']; [lia|]. intros H Hle.
  rewrite buildSubTreeG_S in *.
  destruct (mapM _ (matching (Title p) bs)) as [rs|] eqn:Hrs; [|done].
  simpl in H.
  assert (mapM (λ b, buildSubTreeG fuel' b bs) (matching (Title p) bs) = Some rs)
    as ->; [|done].
  apply mapM_Some. apply mapM_Some in Hrs.
  eapply Forall2_impl; [exact Hrs|]. intros b y Hy. simpl in *.
  apply IH; [done|lia].
Qed.


Lemma findRootFolder_Some bs root :
  findRootFolder bs = Some root ->
  ∃ pre post, bs = pre ++ root :: post ∧ Parent root = "" ∧
              Forall (fun b => Parent b ≠ "") pre.
Proof.
  induction bs as [|b bs IH]; [done|]. simpl.
  destruct (String.eqb_spec (Parent b) "") as [E|E].
  - intros [= <-]. by exists [], bs.
  - intros H. destruct (IH H) as (pre & post & -> & Hr & Hpre).
    exists (b :: pre), post. split; [done|]. split; [done|]. by constructor.
Qed.

Lemma findRootFolder_None bs :
  findRootFolder bs = None <-> Forall (fun b => Parent b ≠ "") bs.
Proof.
  induction bs as [|b bs IH]; simpl; [by split|].
  destruct (String.eqb_spec (Parent b) "") as [E|E].
  - split; [done|]. by inversion 1.
  - rewrite IH. split; [by constructor|]. by inversion 1.
Qed.

Lemma findRootFolder_first pre root post :
  Forall (fun b => Parent b ≠ "") pre -> Parent root = "" ->
  findRootFolder (pre ++ root :: post) = Some root.
Proof.
  intros Hpre Hr. induction Hpre as [|b pre Hb _ IH]; simpl.
  - by rewrite Hr.
  - by destruct (String.eqb_spec (Parent b) "").
Qed.

(** *** Shape of a result and of its trace *)

Lemma buildSubTreeG_inv fuel p bs t tr :
  buildSubTreeG fuel p bs = Some (t, tr) ->
  ∃ fuel' rs, fuel = S fuel' ∧
    Forall2 (fun b r => buildSubTreeG fuel' b bs = Some r)
            (matching (Title p) bs) rs ∧
    t = withKids p rs.*1 ∧ tr = p :: concat rs.*2.
Proof.
  destruct fuel as [|fuel']; [done|]. rewrite buildSubTreeG_S.
  destruct (mapM _ (matching (Title p) bs)) as [rs|] eqn:Hrs; [|done].
  intros [= <- <-]. exists fuel', rs. by apply mapM_Some in Hrs.
Qed.

Lemma Forall2_concat_elem {A B C} (R : A -> B * list C -> Prop) l rs a :
  Forall2 R l rs -> a ∈ concat rs.*2 ->
  ∃ b r, b ∈ l ∧ r ∈ rs ∧ R b r ∧ a ∈ r.2.
Proof.
  induction 1 as [|b r l rs Hbr _ IH]; simpl; [by intros ?%elem_of_nil|].
  rewrite elem_of_app. intros [Ha|Ha].
  - exists b, r. repeat split; [left|left|done|done].
  - destruct (IH Ha) as (b' & r' & ? & ? & ? & ?).
    exists b', r'. repeat split; [by right|by right|done|done].
Qed.

Lemma elem_of_concat_snd {B C} (rs : list (B * list C)) r a :
  r ∈ rs -> a ∈ r.2 -> a ∈ concat rs.*2.
Proof.
  induction 1 as [r rs|r r' rs _ IH]; simpl; rewrite elem_of_app; auto.
Qed.

(** The node built from [p] is [p] with children added after its own, and
    its trace starts with [p]. *)
Lemma buildSubTreeG_head fuel p bs t tr :
  buildSubTreeG fuel p bs = Some (t, tr) ->
  shallow t = shallow p ∧ Bookmarks p `prefix_of` Bookmarks t ∧
  ∃ tr', tr = p :: tr'.
Proof.
  intros (fuel' & rs & -> & _ & -> & ->)%buildSubTreeG_inv.
  split; [done|]. split; [by eexists|by eexists].
Qed.

(** Every record of the trace but the first was adopted by a record of the
    trace: it is in the collection and its parent title is the title of a
    placed record. *)
Lemma trace_adopted fuel p bs t tr a :
  buildSubTreeG fuel p bs = Some (t, tr) -> a ∈ tail tr ->
  a ∈ bs ∧ ∃ q, q ∈ tr ∧ Parent a = Title q.
Proof.
  revert p t tr a. induction fuel as [|fuel IH]; intros p t tr a H; [done|].
  apply buildSubTreeG_inv in H as (fuel' & rs & [= <-] & Hrs & -> & ->).
  simpl. intros Ha.
  destruct (Forall2_concat_elem _ _ _ _ Hrs Ha) as (b & [tb trb] & Hb & Hr & Hbr & Hab).
  simpl in *. apply list_elem_of_filter in Hb as [Hpar Hbs].
  destruct (buildSubTreeG_head _ _ _ _ _ Hbr) as (_ & _ & tr' & ->).
  apply elem_of_cons in Hab as [->|Hab].
  - split; [done|]. exists p. split; [left|done].
  - destruct (IH _ _ _ a Hbr) as (Habs & q & Hq & Hpq); [done|].
    split; [done|]. exists q. split; [|done].
    right. by apply (elem_of_concat_snd rs (tb, b :: tr')).
Qed.

(** A record of the trace was itself built, with no more fuel, and its
    trace lies within the trace. *)
Lemma trace_sub_build fuel p bs t tr a :
  buildSubTreeG fuel p bs = Some (t, tr) -> a ∈ tr ->
  ∃ fuel' ta tra, fuel' <= fuel ∧
    buildSubTreeG fuel' a bs = Some (ta, tra) ∧ tra ⊆ tr.
Proof.
  revert p t tr a. induction fuel as [|fuel IH]; intros p t tr a H; [done|].
  pose proof H as H0.
  apply buildSubTreeG_inv in H as (fuel' & rs & [= <-] & Hrs & -> & ->).
  intros [->|Ha]%elem_of_cons.
  - exists (S fuel), (withKids p rs.*1), (p :: concat rs.*2). by repeat split.
  - destruct (Forall2_concat_elem _ _ _ _ Hrs Ha) as (b & [tb trb] & Hb & Hr & Hbr & Hab).
    destruct (IH _ _ _ a Hbr Hab) as (f' & ta & tra & Hle & Hbuild & Hsub).
    exists f', ta, tra. split; [lia|]. split; [done|].
    intros x Hx. right. apply (elem_of_concat_snd rs (tb, trb)); auto.
Qed.

Lemma nodes_unfold b : nodes b = b :: flat_map nodes (Bookmarks b).
Proof. by destruct b. Qed.

Lemma nodes_trace_kids (rs : list (Bookmark * list Bookmark)) :
  Forall (fun r => shallow <$> nodes r.1 = shallow <$> flat_map nodes r.2) rs ->
  shallow <$> flat_map nodes rs.*1 = shallow <$> flat_map nodes (concat rs.*2).
Proof.
  induction 1 as [|[tb trb] rs Hr _ IH]; [done|].
  rewrite !fmap_cons. cbn [concat flat_map fst snd].
  rewrite flat_map_app, !fmap_app. by f_equal.
Qed.

(** The tree read in pre-order, child lists put aside, is the trace where
    each record is followed by the children it carried before the build:
    the tree holds the placed records and nothing else. *)
Lemma nodes_trace fuel p bs t tr :
  buildSubTreeG fuel p bs = Some (t, tr) ->
  shallow <$> nodes t = shallow <$> flat_map nodes tr.
Proof.
  revert p t tr. induction fuel as [|fuel IH]; intros p t tr H; [done|].
  apply buildSubTreeG_inv in H as (fuel' & rs & [= <-] & Hrs & -> & ->).
  rewrite (nodes_unfold (withKids _ _)).
  cbn [flat_map Bookmarks withKids].
  rewrite (nodes_unfold p), !flat_map_app.
  repeat (rewrite fmap_cons || rewrite fmap_app).
  cbn [app]. f_equal. f_equal. apply nodes_trace_kids.
  clear -Hrs IH. induction Hrs as [|b [tb trb] l rs Hb _ IHrs]; constructor; eauto.
Qed.

Lemma Forall2_elem_l {A B} (R : A -> B -> Prop) l k x :
  Forall2 R l k -> x ∈ l -> ∃ y, y ∈ k ∧ R x y.
Proof.
  induction 1 as [|a b l k Hab _ IH]; [by intros ?%elem_of_nil|].
  intros [->|Hx]%elem_of_cons.
  - exists b. split; [left|done].
  - destruct (IH Hx) as (y & ? & ?). exists y. split; [by right|done].
Qed.

(** A build that returns places no record with an empty title: such a
    node would adopt the root again. *)
Lemma trace_titles_nonempty fuel r bs t tr :
  r ∈ bs -> Parent r = "" ->
  buildSubTreeG fuel r bs = Some (t, tr) ->
  ∀ a, a ∈ tr -> Title a ≠ "".
Proof.
  intros Hr Hpar. revert t tr.
  induction fuel as [fuel IH] using lt_wf_ind. intros t tr H a Ha Hempty.
  destruct (trace_sub_build _ _ _ _ _ _ H Ha) as (f' & ta & tra & Hle & Ha' & Hsub).
  apply buildSubTreeG_inv in Ha' as (g & rs & -> & Hrs & _ & _).
  assert (r ∈ matching (Title a) bs) as Hm.
  { apply list_elem_of_filter. by rewrite Hempty. }
  destruct (Forall2_elem_l _ _ _ _ Hrs Hm) as ([t' tr'] & _ & Hr').
  pose proof (buildSubTreeG_mono _ fuel _ _ _ Hr' ltac:(lia)) as Hr''.
  rewrite H in Hr''. injection Hr'' as <- <-.
  apply (IH g ltac:(lia) _ _ Hr' a Ha Hempty).
Qed.

(** A record that no placed record adopts can be taken out of the
    collection: the build computes the same node and the same trace. *)
Lemma buildSubTreeG_remove fuel p bs1 x bs2 t tr :
  buildSubTreeG fuel p (bs1 ++ x :: bs2) = Some (t, tr) ->
  (∀ a, a ∈ tr -> Title a ≠ Parent x) ->
  buildSubTreeG fuel p (bs1 ++ bs2) = Some (t, tr).
Proof.
  revert p t tr. induction fuel as [|fuel IH]; intros p t tr H Hx; [done|].
  apply buildSubTreeG_inv in H as (fuel' & rs & [= <-] & Hrs & -> & ->).
  rewrite buildSubTreeG_S.
  assert (matching (Title p) (bs1 ++ x :: bs2) = matching (Title p) (bs1 ++ bs2)) as E.
  { unfold matching. rewrite !filter_app, filter_cons_False; [done|].
    intros E. apply (Hx p); [left|done]. }
  rewrite E in Hrs.
  assert (∀ r a, r ∈ rs -> a ∈ r.2 -> Title a ≠ Parent x) as Hx'.
  { intros r a Hr Ha. apply Hx. right. by apply (elem_of_concat_snd rs r). }
  assert (mapM (λ b, buildSubTreeG fuel b (bs1 ++ bs2))
               (matching (Title p) (bs1 ++ bs2)) = Some rs) as ->; [|done].
  apply mapM_Some. clear -Hrs Hx' IH.
  induction Hrs as [|b [tb trb] l rs Hb _ IHrs]; constructor.
  - apply IH; [done|]. intros a Ha. apply (Hx' (tb, trb)); [left|done].
  - apply IHrs. intros r a Hr. apply Hx'. by right.
Qed.

Lemma buildTreeG_det fuel1 fuel2 bs r1 r2 :
  buildTreeG fuel1 bs = Some r1 -> buildTreeG fuel2 bs = Some r2 -> r1 = r2.
Proof.
  unfold buildTreeG. destruct (findRootFolder bs) as [root|]; [|congruence].
  destruct (buildSubTreeG fuel1 root bs) as [[t1 p1]|] eqn:E1; [|done].
  destruct (buildSubTreeG fuel2 root bs) as [[t2 p2]|] eqn:E2; [|done].
  intros [= <-] [= <-].
  apply (buildSubTreeG_mono _ (Nat.max fuel1 fuel2)) in E1; [|lia].
  apply (buildSubTreeG_mono _ (Nat.max fuel1 fuel2)) in E2; [|lia].
  congruence.
Qed.

(** Whatever fuel lets the build return, the result is the same. *)
Lemma buildTree_det fuel1 fuel2 bs r1 r2 :
  buildTree fuel1 bs = Some r1 -> buildTree fuel2 bs = Some r2 -> r1 = r2.
Proof.
  rewrite !buildTree_erase. intros H1 H2.
  destruct (buildTreeG fuel1 bs) as [x1|] eqn:E1; [|done].
  destruct (buildTreeG fuel2 bs) as [x2|] eqn:E2; [|done].
  rewrite (buildTreeG_det _ _ _ _ _ E1 E2) in H1. simpl in *. congruence.
Qed.

(** *** Missing root *)

(** C3.  When no record of the collection has an empty parent title,
    [buildTree] prints "root folder not found" and returns the zero
    [Bookmark], whatever the fuel (no recursion takes place); the node
    returned is not a record of the collection. *)
Theorem buildTree_root_not_found (fuel : nat) (bs : list Bookmark) :
  Forall (fun b => Parent b ≠ "") bs ->
  buildTree fuel bs = Some ([LText "root folder not found"], zeroBookmark)
  ∧ zeroBookmark ∉ bs.
Proof.
  intros Hbs. split.
  - unfold buildTree. by apply findRootFolder_None in Hbs as ->.
  - intros Hin. rewrite Forall_forall in Hbs. by apply (Hbs _ Hin).
Qed.

Lemma buildTree_root_not_found_witness :
  buildTree 0 [folder "Work" "Bar" [link "a" "https://a.example"];
               folder "Play" "Work" []]
  = Some ([LText "root folder not found"], zeroBookmark)
  ∧ zeroBookmark ∉ [folder "Work" "Bar" [link "a" "https://a.example"];
                    folder "Play" "Work" []].
Proof.
  apply (buildTree_root_not_found 0).
  repeat (constructor; [done|]). constructor.
Defined.

(** *** Unreachable records *)

Lemma buildTreeG_placed_in fuel bs out tree placed a :
  buildTreeG fuel bs = Some (out, tree, placed) -> a ∈ placed -> a ∈ bs.
Proof.
  unfold buildTreeG. destruct (findRootFolder bs) as [root|] eqn:Hroot.
  - destruct (buildSubTreeG fuel root bs) as [[t tr]|] eqn:E; [|done].
    intros [= <- <- <-] Ha.
    destruct (buildSubTreeG_head _ _ _ _ _ E) as (_ & _ & tr' & ->).
    apply elem_of_cons in Ha as [->|Ha].
    + apply findRootFolder_Some in Hroot as (pre & post & -> & _).
      apply elem_of_app. right. left.
    + by apply (trace_adopted _ _ _ _ _ a E).
  - by intros [= <- <- <-] ?%elem_of_nil.
Qed.

(** C4.  Take a record [x] with a parent title, in a collection on which
    the build returns [tree], having placed the records [placed] (the root
    and the records copied under a node).  If the parent title of [x] is
    the title of no placed record, then [x] is not placed; the tree and
    the lines printed are those of the build on the collection without
    [x], so nothing is reported about it; and, when the children carried
    by the records have no parent title, no node of the tree has the
    parent title of [x]. *)
Theorem unreachable_record_dropped
  (fuel : nat) (bs1 : list Bookmark) (x : Bookmark) (bs2 : list Bookmark)
  (out : list Line) (tree : Bookmark) (placed : list Bookmark) :
  buildTreeG fuel (bs1 ++ x :: bs2) = Some (out, tree, placed) ->
  Parent x ≠ "" ->
  (∀ a, a ∈ placed -> Title a ≠ Parent x) ->
  buildTree fuel (bs1 ++ x :: bs2) = Some (out, tree)
  ∧ (x ∉ placed)
  ∧ buildTree fuel (bs1 ++ bs2) = Some (out, tree)
  ∧ (inlineUnparented (bs1 ++ x :: bs2) ->
     ∀ n, n ∈ nodes tree -> Parent n ≠ Parent x).
Proof.
  intros H Hpar Hx.
  assert (buildTree fuel (bs1 ++ x :: bs2) = Some (out, tree)) as Hb.
  { rewrite buildTree_erase, H. done. }
  split; [done|].
  assert (∀ a, a ∈ placed -> Parent a ≠ Parent x) as Hplaced.
  { unfold buildTreeG in H.
    destruct (findRootFolder (bs1 ++ x :: bs2)) as [root|] eqn:Hroot;
      [|injection H as <- <- <-; by intros a ?%elem_of_nil].
    destruct (buildSubTreeG fuel root _) as [[t tr]|] eqn:E; [|done].
    injection H as <- <- <-. intros a Ha.
    destruct (buildSubTreeG_head _ _ _ _ _ E) as (_ & _ & tr' & ->).
    apply elem_of_cons in Ha as [->|Ha].
    - apply findRootFolder_Some in Hroot as (_ & _ & _ & -> & _). congruence.
    - destruct (trace_adopted _ _ _ _ _ a E Ha) as (_ & q & Hq & ->).
      by apply Hx. }
  split; [intros Hin; by apply (Hplaced x)|].
  split.
  - rewrite buildTree_erase. unfold buildTreeG in *.
    destruct (findRootFolder (bs1 ++ x :: bs2)) as [root|] eqn:Hroot.
    + destruct (buildSubTreeG fuel root _) as [[t tr]|] eqn:E; [|done].
      injection H as <- <- <-.
      assert (findRootFolder (bs1 ++ bs2) = Some root) as ->.
      { clear -Hroot Hpar. induction bs1 as [|b bs1 IH]; simpl in *.
        - by destruct (String.eqb_spec (Parent x) "").
        - destruct (String.eqb (Parent b) ""); auto. }
      by rewrite (buildSubTreeG_remove _ _ _ _ _ _ _ E Hx).
    + injection H as <- <- <-.
      apply findRootFolder_None in Hroot.
      assert (findRootFolder (bs1 ++ bs2) = None) as ->; [|done].
      apply findRootFolder_None. rewrite Forall_app in *.
      destruct Hroot as [? Hr]. split; [done|]. by inversion Hr.
  - intros Hinl n Hn.
    assert (Parent n = "" ∨ shallow n ∈ shallow <$> flat_map nodes placed)
      as [Hz|Hs]; [|congruence|].
    { pose proof H as H'. unfold buildTreeG in H'.
      destruct (findRootFolder (bs1 ++ x :: bs2)) as [root|].
      - destruct (buildSubTreeG fuel root _) as [[t tr]|] eqn:E; [|done].
        injection H' as <- <- <-. right. rewrite <- (nodes_trace _ _ _ _ _ E).
        by apply list_elem_of_fmap_2.
      - injection H' as <- <- <-. simpl in Hn.
        apply list_elem_of_singleton in Hn as ->. by left. }
    apply list_elem_of_fmap in Hs as (m & Hnm & Hm).
    assert (Parent n = Parent m) as -> by (by injection Hnm).
    apply list_elem_of_In, in_flat_map in Hm as (a & Ha%list_elem_of_In & Hm).
    rewrite nodes_unfold in Hm. destruct Hm as [<-|Hm]; [by apply Hplaced|].
    rewrite (Hinl a m); [congruence| |by apply list_elem_of_In].
    by apply (buildTreeG_placed_in _ _ _ _ _ _ H).
Qed.

Lemma unreachable_record_dropped_witness :
  let x := folder "Lost" "Gone" [link "b" "https://b.example"] in
  let tree := folder "Root" "" [link "a" "https://a.example"; folder "Work" "Root" []] in
  let placed := [folder "Root" "" [link "a" "https://a.example"]; folder "Work" "Root" []] in
  buildTree 2 orphanCollection = Some ([], tree)
  ∧ (x ∉ placed)
  ∧ buildTree 2 [folder "Root" "" [link "a" "https://a.example"];
                 folder "Work" "Root" []] = Some ([], tree)
  ∧ ∀ n, n ∈ nodes tree -> Parent n ≠ Parent x.
Proof.
  intros x tree placed.
  destruct (unreachable_record_dropped 2
              [folder "Root" "" [link "a" "https://a.example"]] x
              [folder "Work" "Root" []] [] tree placed)
    as (H1 & H2 & H3 & H4).
  - vm_compute; reflexivity.
  - simpl; discriminate.
  - intros a Ha. repeat (apply elem_of_cons in Ha as [->|Ha]; [simpl; discriminate|]).
    by apply elem_of_nil in Ha.
  - split; [exact H1|]. split; [exact H2|]. split; [exact H3|]. apply H4.
    intros b c Hb Hc.
    repeat (apply elem_of_cons in Hb as [->|Hb];
            [cbn in Hc;
             repeat (apply elem_of_cons in Hc as [->|Hc]; [reflexivity|]);
             by apply elem_of_nil in Hc|]).
    by apply elem_of_nil in Hb.
Defined.

(** *** Several root candidates *)

(** C10.  [root] is the earliest record with an empty parent title.  A
    build that returns prints nothing and returns [root] with children
    added after its own.  Every later candidate [c] is dropped: its parent
    title (the empty string) is the title of no placed record, no copy of a
    candidate is placed under a node, and the result is the one of the
    collection without [c]. *)
Theorem earliest_root_candidate_selected
  (fuel : nat) (pre : list Bookmark) (root : Bookmark) (post : list Bookmark)
  (out : list Line) (tree : Bookmark) (placed : list Bookmark) :
  Forall (fun b => Parent b ≠ "") pre -> Parent root = "" ->
  buildTreeG fuel (pre ++ root :: post) = Some (out, tree, placed) ->
  findRootFolder (pre ++ root :: post) = Some root
  ∧ buildTree fuel (pre ++ root :: post) = Some (out, tree)
  ∧ out = []
  ∧ shallow tree = shallow root
  ∧ Bookmarks root `prefix_of` Bookmarks tree
  ∧ head placed = Some root
  ∧ ∀ post1 c post2, post = post1 ++ c :: post2 -> Parent c = "" ->
      (∀ a, a ∈ placed -> Title a ≠ Parent c)
      ∧ (c ∉ tail placed)
      ∧ buildTree fuel (pre ++ root :: post1 ++ post2) = Some (out, tree).
Proof.
  intros Hpre Hroot H.
  pose proof (findRootFolder_first pre root post Hpre Hroot) as Hfind.
  split; [done|]. split; [by rewrite buildTree_erase, H|].
  unfold buildTreeG in H. rewrite Hfind in H.
  destruct (buildSubTreeG fuel root _) as [[t tr]|] eqn:E; [|done].
  injection H as <- <- <-. split; [done|].
  destruct (buildSubTreeG_head _ _ _ _ _ E) as (Hsh & Hpref & tr' & ->).
  split; [done|]. split; [done|]. split; [done|].
  intros post1 c post2 -> Hc.
  assert (∀ a, a ∈ root :: tr' -> Title a ≠ Parent c) as Hne.
  { rewrite Hc. eapply trace_titles_nonempty; [|exact Hroot|exact E].
    apply elem_of_app. right. left. }
  split; [done|]. split.
  - simpl. intros Hin.
    destruct (trace_adopted _ _ _ _ _ c E Hin) as (_ & q & Hq & Hcq).
    by apply (Hne q).
  - unfold buildTree.
    rewrite (findRootFolder_first pre root (post1 ++ post2) Hpre Hroot).
    rewrite buildSubTree_erase.
    replace (pre ++ root :: post1 ++ post2)
      with ((pre ++ root :: post1) ++ post2) by by rewrite <- app_assoc.
    rewrite (buildSubTreeG_remove fuel root _ c _ t (root :: tr')); [done| |done].
    by rewrite <- app_assoc.
Qed.

Lemma earliest_root_candidate_selected_witness :
  let root := folder "Root" "" [link "a" "https://a.example"] in
  let tree := folder "Root" "" [link "a" "https://a.example"; folder "Work" "Root" []] in
  let placed := [root; folder "Work" "Root" []] in
  findRootFolder candidatesCollection = Some root
  ∧ buildTree 2 candidatesCollection = Some ([], tree)
  ∧ [] = ([] : list Line)
  ∧ shallow tree = shallow root
  ∧ Bookmarks root `prefix_of` Bookmarks tree
  ∧ head placed = Some root
  ∧ ∀ post1 c post2,
      [folder "Other" "" [link "b" "https://b.example"]] = post1 ++ c :: post2 ->
      Parent c = "" ->
      (∀ a, a ∈ placed -> Title a ≠ Parent c)
      ∧ (c ∉ tail placed)
      ∧ buildTree 2 ([folder "Work" "Root" []] ++ root :: post1 ++ post2)
        = Some ([], tree).
Proof.
  apply (earliest_root_candidate_selected 2 [folder "Work" "Root" []]).
  - repeat (constructor; [done|]). constructor.
  - reflexivity.
  - vm_compute; reflexivity.
Defined.

(** *** Termination *)

Lemma adopts_matching bs a b : adopts bs a b <-> b ∈ matching (Title a) bs.
Proof. unfold adopts, matching. rewrite list_elem_of_filter. tauto. Qed.

Lemma adopts_build_None fuel bs a b :
  adopts bs a b -> buildSubTree fuel b bs = None ->
  buildSubTree (S fuel) a bs = None.
Proof.
  intros Hab%adopts_matching Hb. rewrite buildSubTree_S.
  assert (mapM (λ b, buildSubTree fuel b bs) (matching (Title a) bs) = None)
    as ->; [|done].
  apply mapM_None, Exists_exists. by exists b.
Qed.

(** A record on a title cycle is never completed. *)
Lemma cycle_diverges bs fuel b :
  tc (adopts bs) b b -> buildSubTree fuel b bs = None.
Proof.
  revert b. induction fuel as [|fuel IH]; intros b Hb; [done|].
  assert (∃ c, adopts bs b c ∧ rtc (adopts bs) c b) as (c & Hbc & Hcb).
  { inversion Hb as [? ? Hbb|? c ? Hbc Hcb]; subst.
    - by exists b.
    - exists c. split; [done|]. by apply tc_rtc. }
  apply (adopts_build_None _ _ _ c Hbc), IH.
  eapply tc_rtc_l; [exact Hcb|]. by apply tc_once.
Qed.

Lemma reach_cycle_diverges bs r c :
  rtc (adopts bs) r c -> tc (adopts bs) c c ->
  ∀ fuel, buildSubTree fuel r bs = None.
Proof.
  induction 1 as [c|r y c Hry _ IH]; intros Hc fuel.
  - by apply cycle_diverges.
  - destruct fuel as [|fuel]; [done|].
    apply (adopts_build_None _ _ _ y Hry), IH, Hc.
Qed.

(** Without a cycle, a chain of adoptions holds each record at most once,
    so a fuel above the size of the collection suffices. *)
Lemma acyclic_build_returns bs :
  acyclic bs ->
  ∀ fuel path p,
    NoDup (p :: path) -> (∀ a, a ∈ p :: path -> a ∈ bs) ->
    (∀ a, a ∈ path -> tc (adopts bs) a p) ->
    length bs < length (p :: path) + fuel ->
    is_Some (buildSubTree fuel p bs).
Proof.
  intros Hacyc. induction fuel as [|fuel IH]; intros path p Hnd Hin Hreach Hlen.
  - exfalso. pose proof (submseteq_length _ _ (NoDup_submseteq _ _ Hnd Hin)). lia.
  - rewrite buildSubTree_S.
    destruct (mapM _ (matching (Title p) bs)) as [kids|] eqn:E; [done|].
    exfalso. apply mapM_None, Exists_exists in E as (b & Hb & Hnone).
    apply adopts_matching in Hb.
    assert (is_Some (buildSubTree fuel b bs)) as [? Hsome]; [|congruence].
    apply (IH (p :: path)).
    + apply NoDup_cons. split; [|done].
      intros [->|Hbp]%elem_of_cons.
      * by apply (Hacyc p), tc_once.
      * apply (Hacyc b). eapply tc_r; [by apply Hreach|done].
    + intros a [->|Ha]%elem_of_cons; [apply Hb|by apply Hin].
    + intros a [->|Ha]%elem_of_cons; [by apply tc_once|].
      eapply tc_r; [by apply Hreach|done].
    + simpl in *. lia.
Qed.

(** A ranking of the titles that grows along title linkage rules cycles
    out. *)
Lemma ranked_acyclic (rank : string -> nat) bs :
  Forall (fun b => rank (Parent b) < rank (Title b)) bs -> acyclic bs.
Proof.
  rewrite Forall_forall. intros Hrank.
  assert (∀ a b, tc (adopts bs) a b -> rank (Title a) < rank (Title b)) as Htc.
  { induction 1 as [a b [Hb Hab]|a b c [Hb Hab] _ IH].
    - rewrite <- Hab. by apply Hrank.
    - specialize (Hrank b Hb). rewrite Hab in Hrank. lia. }
  intros b Hb. specialize (Htc b b Hb). lia.
Qed.

(** C8.  On a collection without a title cycle the build returns (a fuel
    above the size of the collection suffices).  On a collection where the
    root reaches, through title linkage, a record that lies on a title
    cycle (its parent title is its own title, or a longer cycle), the build
    returns for no fuel: the recursion of [buildSubTree] has no end. *)
Theorem buildTree_returns_unless_cycle (bs : list Bookmark) :
  (acyclic bs -> ∃ res, buildTree (S (length bs)) bs = Some res)
  ∧ (∀ root c,
       findRootFolder bs = Some root ->
       rtc (adopts bs) root c -> tc (adopts bs) c c ->
       ∀ fuel, buildTree fuel bs = None).
Proof.
  split.
  - intros Hacyc. unfold buildTree.
    destruct (findRootFolder bs) as [root|] eqn:Hroot; [|by eexists].
    assert (root ∈ bs) as Hin.
    { apply findRootFolder_Some in Hroot as (pre & post & -> & _). set_solver. }
    destruct (acyclic_build_returns bs Hacyc (S (length bs)) [] root) as [t ->].
    + apply NoDup_singleton.
    + by intros a ->%list_elem_of_singleton.
    + by intros a ?%elem_of_nil.
    + simpl. lia.
    + by eexists.
  - intros root c Hroot Hreach Hcyc fuel. unfold buildTree. rewrite Hroot.
    by rewrite (reach_cycle_diverges bs root c Hreach Hcyc fuel).
Qed.

Lemma buildTree_returns_unless_cycle_witness :
  (∃ res, buildTree (S (length orphanCollection)) orphanCollection = Some res)
  ∧ (∀ fuel, buildTree fuel selfCycleCollection = None).
Proof.
  split.
  - apply (buildTree_returns_unless_cycle orphanCollection).
    apply (ranked_acyclic
             (fun t => if decide (t = "") then 0
                       else if decide (t = "Root" ∨ t = "Gone") then 1 else 2)).
    repeat (constructor; [vm_compute; lia|]). constructor.
  - apply (proj2 (buildTree_returns_unless_cycle selfCycleCollection)
             (folder "Root" "" []) (folder "Root" "Root" [])).
    + reflexivity.
    + apply rtc_once. split; [|reflexivity]. set_solver.
    + apply tc_once. split; [|reflexivity]. set_solver.
Defined.

(** *** Duplicate titles *)

Lemma filter_two_length {A} (P : A -> Prop) `{!∀ x, Decision (P x)}
      (X Y Z : list A) a b :
  P a -> P b -> 2 <= length (filter P (X ++ a :: Y ++ b :: Z)).
Proof.
  intros Ha Hb.
  rewrite filter_app, filter_cons_True, filter_app, filter_cons_True by done.
  rewrite length_app. simpl. rewrite length_app. simpl. lia.
Qed.

Lemma countTitled_two t (l1 l2 l3 : list Bookmark) n1 n2 tree :
  Bookmarks tree = l1 ++ n1 :: l2 ++ n2 :: l3 ->
  Title n1 = t -> Title n2 = t -> 2 <= countTitled t tree.
Proof.
  intros Hb H1 H2. unfold countTitled.
  rewrite nodes_unfold, Hb, flat_map_app. cbn [flat_map].
  rewrite flat_map_app. cbn [flat_map].
  rewrite (nodes_unfold n1), (nodes_unfold n2), <- ?app_assoc. cbn [app].
  pose proof (filter_two_length (λ n, Title n = t)
    (flat_map nodes l1) (flat_map nodes (Bookmarks n1) ++ flat_map nodes l2)
    (flat_map nodes (Bookmarks n2) ++ flat_map nodes l3) n1 n2 H1 H2) as Hlen.
  rewrite <- !app_assoc in Hlen.
  rewrite filter_cons. case_decide; simpl; lia.
Qed.

(** No merged "Work" node comes out of [worksCollection]: the
    build returns [worksTree], which has two nodes titled "Work", none of
    them with both links. *)
Lemma duplicate_titles_merged_counterexample :
  buildTree 2 worksCollection = Some ([], worksTree)
  ∧ countTitled "Work" worksTree = 2
  ∧ ¬ (∃ fuel out tree n,
         buildTree fuel worksCollection = Some (out, tree)
         ∧ countTitled "Work" tree = 1
         ∧ n ∈ nodes tree ∧ Title n = "Work"
         ∧ Bookmarks n = [link "a" "https://a.example";
                          link "b" "https://b.example"]).
Proof.
  assert (buildTree 2 worksCollection = Some ([], worksTree)) as H2
    by (vm_compute; reflexivity).
  split; [done|]. split; [vm_compute; reflexivity|].
  intros (fuel & out & tree & n & H & Hcount & _).
  pose proof (buildTree_det _ _ _ _ _ H H2) as [= -> ->].
  vm_compute in Hcount. discriminate.
Qed.

(** C1, as the code has it.  Two records [w1] and [w2], both titled
    "Work" and both with the root's title as parent title, each carrying
    one link, are not merged: a build that returns gives the root two
    children titled "Work", in collection order.  Each keeps its own link
    as first child; after it come the completed copies [extra] of the
    records whose parent title is "Work", the same under both nodes, and
    none when the collection has no such record. *)
Theorem duplicate_titles_not_merged
  (fuel : nat) (pre mid post : list Bookmark) (root w1 w2 l1 l2 : Bookmark)
  (out : list Line) (tree : Bookmark) :
  let bs := pre ++ w1 :: mid ++ w2 :: post in
  findRootFolder bs = Some root ->
  Title w1 = "Work" -> Title w2 = "Work" ->
  Parent w1 = Title root -> Parent w2 = Title root ->
  Bookmarks w1 = [l1] -> Bookmarks w2 = [l2] ->
  buildTree fuel bs = Some (out, tree) ->
  ∃ extra k1 k2 k3 n1 n2,
    Bookmarks tree = Bookmarks root ++ k1 ++ n1 :: k2 ++ n2 :: k3
    ∧ n1 = withKids w1 extra ∧ Bookmarks n1 = l1 :: extra
    ∧ n2 = withKids w2 extra ∧ Bookmarks n2 = l2 :: extra
    ∧ (Forall (fun b => Parent b ≠ "Work") bs -> extra = [])
    ∧ 2 <= countTitled "Work" tree.
Proof.
  intros bs Hroot Ht1 Ht2 Hp1 Hp2 Hb1 Hb2 H.
  unfold buildTree in H. rewrite Hroot in H.
  destruct (buildSubTree fuel root bs) as [t|] eqn:E; [|done].
  injection H as <- <-.
  destruct fuel as [|fuel]; [done|]. rewrite buildSubTree_S in E.
  destruct (mapM _ (matching (Title root) bs)) as [kids|] eqn:Hkids; [|done].
  injection E as <-.
  apply mapM_Some in Hkids. unfold matching, bs in Hkids.
  rewrite filter_app, filter_cons_True, filter_app, filter_cons_True in Hkids
    by done.
  apply Forall2_app_inv_l in Hkids as (k1 & kk & _ & Hkk & ->).
  apply Forall2_cons_inv_l in Hkk as (n1 & kk' & Hn1 & Hkk & ->).
  apply Forall2_app_inv_l in Hkk as (k2 & kk & _ & Hkk' & ->).
  apply Forall2_cons_inv_l in Hkk' as (n2 & k3 & Hn2 & _ & ->).
  destruct fuel as [|fuel]; [done|]. rewrite buildSubTree_S in Hn1, Hn2.
  rewrite Ht1 in Hn1. rewrite Ht2 in Hn2.
  destruct (mapM _ (matching "Work" bs)) as [extra|] eqn:Hextra; [|done].
  injection Hn1 as <-. injection Hn2 as <-.
  exists extra, k1, k2, k3, (withKids w1 extra), (withKids w2 extra).
  split; [done|]. split; [done|]. split; [by simpl; rewrite Hb1|].
  split; [done|]. split; [by simpl; rewrite Hb2|]. split.
  - intros Hnone. apply mapM_Some in Hextra.
    assert (matching "Work" bs = []) as Hm.
    { unfold matching. clear -Hnone.
      induction Hnone as [|b l Hb _ IH]; [done|].
      by rewrite filter_cons_False. }
    rewrite Hm in Hextra. by apply Forall2_nil_inv_l in Hextra.
  - by apply (countTitled_two _ (Bookmarks root ++ k1) k2 k3
                (withKids w1 extra) (withKids w2 extra));
      [simpl; rewrite <- app_assoc|..].
Qed.

Lemma duplicate_titles_not_merged_witness :
  ∃ extra k1 k2 k3 n1 n2,
    Bookmarks worksTree = Bookmarks (folder "Root" "" []) ++ k1 ++ n1 :: k2 ++ n2 :: k3
    ∧ n1 = withKids (folder "Work" "Root" [link "a" "https://a.example"]) extra
    ∧ Bookmarks n1 = link "a" "https://a.example" :: extra
    ∧ n2 = withKids (folder "Work" "Root" [link "b" "https://b.example"]) extra
    ∧ Bookmarks n2 = link "b" "https://b.example" :: extra
    ∧ (Forall (fun b => Parent b ≠ "Work") worksCollection -> extra = [])
    ∧ 2 <= countTitled "Work" worksTree.
Proof.
  apply (duplicate_titles_not_merged 2 [folder "Root" "" []] [] []
           (folder "Root" "" []) _ _ _ _ []); reflexivity.
Defined.

(** ** Timestamps *)

(** The sample of the README: the four timestamps of the input and the
    texts of its output, produced in a location eight hours east of UTC. *)
Example readme_times :
  let cst := time.FixedZone (8 * 3600) in
  (parseTime "1634454000").1 ≫= time.formatRFC3339 cst
    = Some "2021-10-17T15:00:00+08:00"
  ∧ (parseTime "1634454200").1 ≫= time.formatRFC3339 cst
    = Some "2021-10-17T15:03:20+08:00"
  ∧ (parseTime "1634454300").1 ≫= time.formatRFC3339 cst
    = Some "2021-10-17T15:05:00+08:00"
  ∧ (parseTime "1634454320").1 ≫= time.formatRFC3339 cst
    = Some "2021-10-17T15:05:20+08:00".
Proof. repeat split; vm_compute; reflexivity. Qed.

Example format_samples :
  time.formatRFC3339 time.UTC 0 = Some "1970-01-01T00:00:00Z"
  ∧ time.formatRFC3339 time.UTC (-1) = Some "1969-12-31T23:59:59Z"
  ∧ time.formatRFC3339 time.UTC 951782400 = Some "2000-02-29T00:00:00Z"
  ∧ time.formatRFC3339 time.UTC 253402300799 = Some "9999-12-31T23:59:59Z"
  ∧ time.formatRFC3339 time.UTC 253402300800 = None
  ∧ time.formatRFC3339 time.UTC (-62167219200) = Some "0000-01-01T00:00:00Z"
  ∧ time.formatRFC3339 time.UTC (-62167219201) = None
  ∧ time.formatRFC3339 (time.FixedZone (-(5 * 3600 + 30 * 60))) 0
    = Some "1969-12-31T18:30:00-05:30".
Proof. repeat split; vm_compute; reflexivity. Qed.

Example parseTime_samples :
  parseTime "" = (None, [])
  ∧ parseTime "+12" = (Some 12%Z, [])
  ∧ parseTime "-12" = (Some (-12)%Z, [])
  ∧ parseTime "9223372036854775807" = (Some 9223372036854775807%Z, [])
  ∧ parseTime "-9223372036854775808" = (Some (-9223372036854775808)%Z, [])
  ∧ parseTime "9223372036854775808"
    = (None, [LNumError "error parsing timestamp:" "ParseInt"
                        "9223372036854775808" ErrRange])
  ∧ parseTime "12a"
    = (None, [LNumError "error parsing timestamp:" "ParseInt" "12a" ErrSyntax])
  ∧ parseTime "-"
    = (None, [LNumError "error parsing timestamp:" "ParseInt" "-" ErrSyntax])
  ∧ parseTime "1_000"
    = (None, [LNumError "error parsing timestamp:" "ParseInt" "1_000" ErrSyntax])
  ∧ parseTime "99999999999999999999x"
    = (None, [LNumError "error parsing timestamp:" "ParseInt"
                        "99999999999999999999x" ErrRange]).
Proof. repeat split; vm_compute; reflexivity. Qed.

(** ** The sample of the README *)

Example readme_sample :
  main (time.FixedZone (8 * 3600)) 1 readmeDocument
  = Some [LJSON (JObject
      [("title", JString "Bookmarks bar");
       ("bookmarks", JArray [JObject
          [("title", JString "Example site");
           ("url", JString "https://www.example.com");
           ("addAt", JString "2021-10-17T15:05:00+08:00");
           ("updateAt", JString "2021-10-17T15:05:20+08:00")]]);
       ("addAt", JString "2021-10-17T15:00:00+08:00");
       ("updateAt", JString "2021-10-17T15:03:20+08:00")])].
Proof. vm_compute. reflexivity. Qed.

(** A document without any folder: [main] reports the missing root and
    prints the zero [Bookmark]. *)
Example no_folder_output :
  main time.UTC 0 (netscape.document [])
  = Some [LText "root folder not found"; LJSON (JObject [("title", JString "")])].
Proof. vm_compute. reflexivity. Qed.

(** ** Serialization *)

Lemma Bookmark_ind (P : Bookmark -> Prop) :
  (∀ b, Forall P (Bookmarks b) -> P b) -> ∀ b, P b.
Proof.
  intros H. fix IH 1. intros b. apply H.
  destruct b as [t u p kids a m]. simpl.
  induction kids as [|k kids IHk]; constructor; [apply IH|apply IHk].
Qed.

Lemma marshal_unfold loc b :
  marshal loc b =
  kids ← mapM (marshal loc) (Bookmarks b);
  addAt ← match AddAt b with
          | None => Some []
          | Some t => s ← time.formatRFC3339 loc t; Some [("addAt", JString s)]
          end;
  updateAt ← match UpdateAt b with
             | None => Some []
             | Some t => s ← time.formatRFC3339 loc t; Some [("updateAt", JString s)]
             end;
  Some (JObject ([("title", JString (Title b))]
                 ++ omitempty (String.eqb (URL b) "") "url" (JString (URL b))
                 ++ omitempty (length (Bookmarks b) =? 0)%nat "bookmarks" (JArray kids)
                 ++ addAt ++ updateAt)).
Proof. by destruct b. Qed.

Lemma marshal_keys loc b j :
  marshal loc b = Some j -> Forall (fun k => k ∈ jsonFields) (keys j).
Proof.
  revert j. induction b as [b IH] using Bookmark_ind. intros j.
  rewrite marshal_unfold.
  destruct (mapM (marshal loc) (Bookmarks b)) as [kids|] eqn:Hkids; [|done].
  simpl.
  assert (Forall (fun k => k ∈ jsonFields) (flat_map keys kids)) as Hk.
  { apply mapM_Some in Hkids. clear -IH Hkids.
    induction Hkids as [|c jc l js Hc _ IHl]; [constructor|].
    simpl. apply Forall_app. inversion IH; subst. split; eauto. }
  assert (∀ t key, key ∈ jsonFields ->
           ∀ l, (s ← time.formatRFC3339 loc t; Some [(key, JString s)]) = Some l ->
           Forall (fun k => k ∈ jsonFields) (flat_map (fun m => m.1 :: keys m.2) l))
    as Htime.
  { intros t key Hkey l. destruct (time.formatRFC3339 loc t); [|done].
    intros [= <-]. simpl. constructor; [done|constructor]. }
  destruct (match AddAt b with None => _ | Some _ => _ end) as [addAt|] eqn:Ha;
    [|done].
  destruct (match UpdateAt b with None => _ | Some _ => _ end) as [updateAt|] eqn:Hu;
    [|done].
  simpl. intros [= <-]. simpl. constructor; [set_solver|].
  rewrite !flat_map_app, !Forall_app. repeat split.
  - unfold omitempty. destruct (String.eqb _ _); simpl; [constructor|].
    constructor; [set_solver|constructor].
  - unfold omitempty. destruct (_ =? _)%nat; simpl; [constructor|].
    constructor; [set_solver|]. by rewrite app_nil_r.
  - destruct (AddAt b) as [t|]; [|by injection Ha as <-].
    apply (Htime t "addAt"); [set_solver|done].
  - destruct (UpdateAt b) as [t|]; [|by injection Hu as <-].
    apply (Htime t "updateAt"); [set_solver|done].
Qed.

(** The parent titles have no part in the JSON text. *)
Lemma marshal_eraseParents loc b :
  marshal loc (eraseParents b) = marshal loc b.
Proof.
  induction b as [b IH] using Bookmark_ind.
  rewrite (marshal_unfold loc b), (marshal_unfold loc (eraseParents b)).
  destruct b as [t u p kids a m]. simpl in *.
  assert (mapM (marshal loc) (map eraseParents kids) = mapM (marshal loc) kids)
    as ->.
  { clear -IH. induction IH as [|c l Hc _ IHl]; [done|]. simpl.
    by rewrite Hc, IHl. }
  by rewrite length_map.
Qed.

Lemma parseTime_lines s : Forall isTimestampError (parseTime s).2.
Proof.
  unfold parseTime. destruct (String.length s =? 0)%nat; [constructor|].
  destruct (strconv.ParseInt s); simpl; repeat constructor.
Qed.

Lemma bind_lines {A B} (m : Out A) (f : A -> Out B) :
  Forall isTimestampError m.2 -> (∀ a, Forall isTimestampError (f a).2) ->
  Forall isTimestampError (bind m f).2.
Proof. intros Hm Hf. unfold bind. simpl. apply Forall_app. split; auto. Qed.

Lemma linkBookmark_lines aNode : Forall isTimestampError (linkBookmark aNode).2.
Proof.
  unfold linkBookmark.
  repeat (apply bind_lines; [apply parseTime_lines|intros ?]). constructor.
Qed.

Lemma eachDT_lines dtNodes acc : Forall isTimestampError (eachDT dtNodes acc).2.
Proof.
  revert acc. induction dtNodes as [|dt rest IH]; intros acc; cbn [eachDT];
    [constructor|].
  destruct (goquery.Is _ _); [|apply IH].
  apply bind_lines; [apply linkBookmark_lines|intros ?; apply IH].
Qed.

Lemma folderBookmark_lines header :
  Forall isTimestampError (folderBookmark header).2.
Proof.
  unfold folderBookmark.
  repeat (apply bind_lines; [apply parseTime_lines|intros ?]).
  apply bind_lines; [|intros ?; constructor].
  destruct (goquery.Is _ _); [apply eachDT_lines|constructor].
Qed.

Lemma parseBookmarks_lines doc : Forall isTimestampError (parseBookmarks doc).2.
Proof.
  unfold parseBookmarks. generalize (@nil Bookmark).
  induction (goquery.each _) as [|h rest IH]; intros acc; cbn [eachH3];
    [constructor|].
  apply bind_lines; [apply folderBookmark_lines|intros ?; apply IH].
Qed.

Lemma parseBookmarksMap_lines doc :
  Forall isTimestampError (parseBookmarksMap doc).2.
Proof.
  unfold parseBookmarksMap. generalize (∅ : gmap string Bookmark).
  induction (goquery.each _) as [|h rest IH]; intros acc; cbn [eachH3Map];
    [constructor|].
  apply bind_lines; [apply folderBookmark_lines|intros ?; apply IH].
Qed.

Lemma mainFrom_json loc fuel extracted out j :
  Forall isTimestampError extracted.2 ->
  mainFrom loc fuel extracted = Some out -> LJSON j ∈ out ->
  ∃ tree, marshal loc tree = Some j.
Proof.
  intros Hext. unfold mainFrom, buildTree.
  destruct (findRootFolder extracted.1) as [root|].
  - destruct (buildSubTree fuel root extracted.1) as [tree|]; [|done].
    intros [= <-]. cbn [app]. rewrite elem_of_app, list_elem_of_singleton.
    intros [Hin|Hj].
    + rewrite Forall_forall in Hext. by destruct (Hext _ Hin).
    + exists tree. unfold printTree in Hj. by destruct (marshal loc tree); simplify_eq.
  - intros [= <-]. rewrite elem_of_app, elem_of_cons, list_elem_of_singleton.
    intros [Hin|[?|Hj]]; [|done|].
    + rewrite Forall_forall in Hext. by destruct (Hext _ Hin).
    + exists zeroBookmark. unfold printTree in Hj.
      by destruct (marshal loc zeroBookmark); simplify_eq.
Qed.

(** C9.  Whatever the document, the location and the revision of the
    extractor, a JSON text printed by [main] is the serialization of a
    tree, every member name in it, at every depth, is one of [title],
    [url], [bookmarks], [addAt] and [updateAt], so none is [parent],
    [Parent] or [parentTitle]; and it is also the serialization of that
    tree with every parent title erased: the parent titles leave no trace
    in the output. *)
Theorem parent_never_serialized
  (Local : time.Location) (fuel : nat) (doc : goquery.Selection)
  (out : list Line) (j : JSON) :
  main Local fuel doc = Some out ∨ mainMap Local fuel doc (Some out) ->
  LJSON j ∈ out ->
  Forall (fun k => k ∈ jsonFields) (keys j)
  ∧ ("parent" ∉ keys j) ∧ ("Parent" ∉ keys j) ∧ ("parentTitle" ∉ keys j)
  ∧ ∃ tree, marshal Local tree = Some j
            ∧ marshal Local (eraseParents tree) = Some j.
Proof.
  intros Hrun Hj.
  assert (∃ tree, marshal Local tree = Some j) as [tree Htree].
  { destruct Hrun as [Hrun|Hrun].
    - apply (mainFrom_json _ _ _ _ _ (parseBookmarks_lines doc) Hrun Hj).
    - inversion Hrun as [bs Hbs Hout].
      apply (mainFrom_json _ _ (bs, _) _ _ (parseBookmarksMap_lines doc) Hout Hj). }
  pose proof (marshal_keys _ _ _ Htree) as Hkeys.
  split; [done|]. rewrite Forall_forall in Hkeys.
  assert (∀ k, bool_decide (k ∈ jsonFields) = false -> k ∉ keys j) as Hnot.
  { intros k Hk Hin. apply bool_decide_eq_false in Hk. by apply Hk, Hkeys. }
  repeat split; try (apply Hnot; vm_compute; reflexivity).
  exists tree. by rewrite marshal_eraseParents.
Qed.

Lemma parent_never_serialized_witness :
  let j := JObject
      [("title", JString "Bookmarks bar");
       ("bookmarks", JArray [JObject
          [("title", JString "Example site");
           ("url", JString "https://www.example.com");
           ("addAt", JString "2021-10-17T07:05:00Z");
           ("updateAt", JString "2021-10-17T07:05:20Z")]]);
       ("addAt", JString "2021-10-17T07:00:00Z");
       ("updateAt", JString "2021-10-17T07:03:20Z")] in
  Forall (fun k => k ∈ jsonFields) (keys j)
  ∧ ("parent" ∉ keys j) ∧ ("Parent" ∉ keys j) ∧ ("parentTitle" ∉ keys j)
  ∧ ∃ tree, marshal time.UTC tree = Some j
            ∧ marshal time.UTC (eraseParents tree) = Some j.
Proof.
  intros j.
  apply (parent_never_serialized time.UTC 1 readmeDocument [LJSON j] j).
  - left. vm_compute. reflexivity.
  - apply list_elem_of_singleton. reflexivity.
Defined.

(** ** Timestamp fidelity *)

Lemma AttrOr_element doc loc tag attrs kids name d :
  goquery.nodeAt doc loc = Some (html.ElementNode tag attrs kids) ->
  goquery.AttrOr (goquery.mkSelection doc [loc]) name d
  = default d (goquery.attrLookup name attrs).
Proof. intros H. unfold goquery.AttrOr. simpl. by rewrite H. Qed.

Lemma linkBookmark_fields aNode :
  (linkBookmark aNode).1
  = mkBookmark (goquery.Text aNode) (goquery.AttrOr aNode "href" "") "" []
      (parseTime (goquery.AttrOr aNode "add_date" "")).1
      (parseTime (goquery.AttrOr aNode "last_modified" "")).1.
Proof. reflexivity. Qed.

(** The instant read from [add_date="1634454300"] is not
    2021-10-17T15:05:00 in UTC: it is 07:05:00 on that day. *)
Lemma add_date_utc_counterexample :
  ∃ t, AddAt (linkBookmark sampleLink).1 = Some t
       ∧ time.civil time.UTC t = time.mkCivil 2021 10 17 7 5 0
       ∧ time.civil time.UTC t ≠ time.mkCivil 2021 10 17 15 5 0
       ∧ time.formatRFC3339 time.UTC t ≠ Some "2021-10-17T15:05:00Z".
Proof.
  exists 1634454300%Z. repeat split; try (vm_compute; reflexivity);
    vm_compute; discriminate.
Qed.

(** C7, as the code has it.  A link element whose [add_date] is
    "1634454300" gets as [AddAt] the instant 1634454300 seconds after the
    Unix epoch, which reads 2021-10-17T07:05:00 in UTC, and
    2021-10-17T15:05:00 eight hours east of UTC (the location of the
    README's sample).  A link element without [add_date] gets no [AddAt],
    and its serialization has no member [addAt]. *)
Theorem link_add_date
  (dated undated : goquery.Selection) (loc loc' : goquery.Loc)
  (tag tag' : string) (attrs attrs' : list (string * string))
  (kids kids' : list html.Node) :
  goquery.Nodes dated = [loc] ->
  goquery.nodeAt (goquery.document dated) loc
  = Some (html.ElementNode tag attrs kids) ->
  goquery.attrLookup "add_date" attrs = Some "1634454300" ->
  goquery.Nodes undated = [loc'] ->
  goquery.nodeAt (goquery.document undated) loc'
  = Some (html.ElementNode tag' attrs' kids') ->
  goquery.attrLookup "add_date" attrs' = None ->
  (AddAt (linkBookmark dated).1 = Some (time.Unix 1634454300)
   ∧ time.civil time.UTC (time.Unix 1634454300)
     = time.mkCivil 2021 10 17 7 5 0
   ∧ time.formatRFC3339 time.UTC (time.Unix 1634454300)
     = Some "2021-10-17T07:05:00Z"
   ∧ time.formatRFC3339 (time.FixedZone (8 * 3600)) (time.Unix 1634454300)
     = Some "2021-10-17T15:05:00+08:00")
  ∧ (AddAt (linkBookmark undated).1 = None
     ∧ ∀ Local j, marshal Local (linkBookmark undated).1 = Some j ->
                  "addAt" ∉ keys j).
Proof.
  destruct dated as [doc nodes], undated as [doc' nodes'].
  cbn [goquery.Nodes goquery.document].
  intros -> Hnode Hattr -> Hnode' Hattr'. rewrite !linkBookmark_fields. split.
  - simpl. rewrite (AttrOr_element _ _ _ _ _ _ _ Hnode), Hattr.
    repeat split; vm_compute; reflexivity.
  - assert (parseTime (goquery.AttrOr (goquery.mkSelection doc' [loc']) "add_date" "")
            = (None, [])) as Hnone.
    { by rewrite (AttrOr_element _ _ _ _ _ _ _ Hnode'), Hattr'. }
    rewrite Hnone. split; [done|].
    intros Local j. rewrite marshal_unfold. simpl.
    destruct (parseTime _).1 as [t|]; simpl.
    + destruct (time.formatRFC3339 Local t); simpl; [|done].
      intros [= <-]. unfold omitempty.
      destruct (String.eqb _ _); simpl;
        intros Hin; repeat (apply elem_of_cons in Hin as [Hin|Hin]; [done|]);
        by apply elem_of_nil in Hin.
    + intros [= <-]. unfold omitempty.
      destruct (String.eqb _ _); simpl;
        intros Hin; repeat (apply elem_of_cons in Hin as [Hin|Hin]; [done|]);
        by apply elem_of_nil in Hin.
Qed.

Lemma link_add_date_witness :
  (AddAt (linkBookmark sampleLink).1 = Some (time.Unix 1634454300)
   ∧ time.civil time.UTC (time.Unix 1634454300)
     = time.mkCivil 2021 10 17 7 5 0
   ∧ time.formatRFC3339 time.UTC (time.Unix 1634454300)
     = Some "2021-10-17T07:05:00Z"
   ∧ time.formatRFC3339 (time.FixedZone (8 * 3600)) (time.Unix 1634454300)
     = Some "2021-10-17T15:05:00+08:00")
  ∧ (AddAt (linkBookmark undatedLink).1 = None
     ∧ ∀ Local j, marshal Local (linkBookmark undatedLink).1 = Some j ->
                  "addAt" ∉ keys j).
Proof.
  apply (link_add_date sampleLink undatedLink [0%nat] [0%nat] "a" "a"
           [("href", "https://www.example.com"); ("add_date", "1634454300")]
           [("href", "https://www.example.com")]
           [html.TextNode "Example site"] [html.TextNode "Example site"]);
    reflexivity.
Defined.

(** ** Timestamp failures *)

Lemma Node_ind (P : html.Node -> Prop) :
  (∀ tag attrs kids, Forall P kids -> P (html.ElementNode tag attrs kids)) ->
  (∀ data, P (html.TextNode data)) ->
  (∀ data, P (html.CommentNode data)) ->
  (∀ data, P (html.DoctypeNode data)) ->
  ∀ n, P n.
Proof.
  intros He Ht Hc Hd. fix IH 1.
  intros [tag attrs kids|data|data|data]; [|apply Ht|apply Hc|apply Hd].
  apply He. induction kids as [|k kids IHk]; constructor; [apply IH|apply IHk].
Qed.

Lemma textOf_element tag attrs kids :
  goquery.textOf (html.ElementNode tag attrs kids)
  = foldr (fun c acc => goquery.textOf c +:+ acc) EmptyString kids.
Proof. simpl. induction kids as [|c kids IH]; [done|]. simpl. by rewrite IH. Qed.

Lemma matchAll_element selector loc tag attrs kids :
  goquery.matchAll selector loc (html.ElementNode tag attrs kids)
  = (if goquery.matchNode selector (html.ElementNode tag attrs kids)
     then [loc] else [])
    ++ goquery.matchAllFrom selector loc 0 kids.
Proof.
  cbn [goquery.matchAll]. f_equal. generalize 0%nat.
  induction kids as [|c kids IH]; intros i; [done|].
  cbn [goquery.matchAllFrom]. by rewrite <- IH.
Qed.

Lemma stripTimes_isElement n : html.isElement (stripTimes n) = html.isElement n.
Proof. by destruct n. Qed.

Lemma stripTimes_matchNode selector n :
  goquery.matchNode selector (stripTimes n) = goquery.matchNode selector n.
Proof. by destruct n. Qed.

Lemma stripTimes_textOf n : goquery.textOf (stripTimes n) = goquery.textOf n.
Proof.
  induction n as [tag attrs kids IH|?|?|?] using Node_ind; try done.
  cbn [stripTimes]. rewrite !textOf_element.
  induction IH as [|c kids Hc _ IHk]; [done|]. simpl. by rewrite Hc, IHk.
Qed.

Lemma stripTimes_matchAll selector n :
  ∀ loc, goquery.matchAll selector loc (stripTimes n)
         = goquery.matchAll selector loc n.
Proof.
  induction n as [tag attrs kids IH|?|?|?] using Node_ind; try done.
  intros loc. cbn [stripTimes]. rewrite !matchAll_element. f_equal.
  generalize 0%nat.
  induction IH as [|c kids Hc _ IHk]; intros i; [done|].
  cbn [map goquery.matchAllFrom]. by rewrite Hc, IHk.
Qed.

Lemma stripTimes_matchAllFrom selector loc i ns :
  goquery.matchAllFrom selector loc i (stripTimes <$> ns)
  = goquery.matchAllFrom selector loc i ns.
Proof.
  revert i. induction ns as [|c ns IH]; intros i; [done|].
  rewrite fmap_cons. cbn [goquery.matchAllFrom].
  by rewrite stripTimes_matchAll, IH.
Qed.

Lemma stripTimes_elementsFrom i ns :
  goquery.elementsFrom i (stripTimes <$> ns) = goquery.elementsFrom i ns.
Proof.
  revert i. induction ns as [|c ns IH]; intros i; [done|].
  rewrite fmap_cons. cbn [goquery.elementsFrom].
  by rewrite stripTimes_isElement, IH.
Qed.

Lemma stripTimes_nodeAtPath ns path :
  goquery.nodeAtPath (stripTimes <$> ns) path
  = stripTimes <$> goquery.nodeAtPath ns path.
Proof.
  revert ns. induction path as [|i rest IH]; intros ns; [done|].
  cbn [goquery.nodeAtPath]. rewrite list_lookup_fmap.
  destruct (ns !! i) as [n|]; [|done]. cbn [fmap option_fmap option_map].
  destruct rest as [|i' rest']; [done|].
  destruct n as [tag attrs kids|?|?|?]; try done.
  cbn [stripTimes]. apply (IH kids).
Qed.

Lemma stripTimes_nodeAt doc loc :
  goquery.nodeAt (stripTimes <$> doc) loc = stripTimes <$> goquery.nodeAt doc loc.
Proof. apply stripTimes_nodeAtPath. Qed.

Lemma stripTimes_childrenAt doc loc :
  goquery.childrenAt (stripTimes <$> doc) loc
  = stripTimes <$> goquery.childrenAt doc loc.
Proof.
  unfold goquery.childrenAt. destruct loc as [|i up]; [done|].
  rewrite stripTimes_nodeAt.
  by destruct (goquery.nodeAt doc (i :: up)) as [[tag attrs kids|?|?|?]|].
Qed.

Lemma stripTimes_matchLoc doc selector loc :
  goquery.matchLoc (stripTimes <$> doc) selector loc
  = goquery.matchLoc doc selector loc.
Proof.
  unfold goquery.matchLoc. rewrite stripTimes_nodeAt.
  destruct (goquery.nodeAt doc loc) as [n|]; [|done].
  apply stripTimes_matchNode.
Qed.

Lemma Find_stripTimes s selector :
  goquery.Find (stripTimesDoc s) selector = stripTimesDoc (goquery.Find s selector).
Proof.
  unfold goquery.Find, stripTimesDoc. cbn [goquery.document goquery.Nodes].
  f_equal. apply flat_map_ext. intros loc.
  by rewrite stripTimes_childrenAt, stripTimes_matchAllFrom.
Qed.

Lemma each_stripTimes s :
  goquery.each (stripTimesDoc s) = stripTimesDoc <$> goquery.each s.
Proof.
  unfold goquery.each, stripTimesDoc. cbn [goquery.document goquery.Nodes].
  induction (goquery.Nodes s) as [|loc l IH]; [done|].
  rewrite !fmap_cons. by f_equal.
Qed.

Lemma Text_stripTimes s : goquery.Text (stripTimesDoc s) = goquery.Text s.
Proof.
  unfold goquery.Text, stripTimesDoc. cbn [goquery.document goquery.Nodes].
  induction (goquery.Nodes s) as [|loc l IH]; [done|]. cbn [foldr].
  rewrite IH, stripTimes_nodeAt.
  destruct (goquery.nodeAt (goquery.document s) loc) as [n|]; [|done].
  cbn [fmap option_fmap option_map]. by rewrite stripTimes_textOf.
Qed.

Lemma Is_stripTimes s selector :
  goquery.Is (stripTimesDoc s) selector = goquery.Is s selector.
Proof.
  unfold goquery.Is, stripTimesDoc. cbn [goquery.document goquery.Nodes].
  induction (goquery.Nodes s) as [|loc l IH]; [done|]. cbn [existsb].
  by rewrite IH, stripTimes_matchLoc.
Qed.

Lemma Children_stripTimes s :
  goquery.Children (stripTimesDoc s) = stripTimesDoc (goquery.Children s).
Proof.
  unfold goquery.Children, stripTimesDoc. cbn [goquery.document goquery.Nodes].
  f_equal. apply flat_map_ext. intros loc.
  by rewrite stripTimes_childrenAt, stripTimes_elementsFrom.
Qed.

Lemma ChildrenFiltered_stripTimes s selector :
  goquery.ChildrenFiltered (stripTimesDoc s) selector
  = stripTimesDoc (goquery.ChildrenFiltered s selector).
Proof.
  unfold goquery.ChildrenFiltered. rewrite Children_stripTimes.
  unfold stripTimesDoc. cbn [goquery.document goquery.Nodes].
  f_equal. apply List.filter_ext. intros loc. apply stripTimes_matchLoc.
Qed.

Lemma First_stripTimes s :
  goquery.First (stripTimesDoc s) = stripTimesDoc (goquery.First s).
Proof. reflexivity. Qed.

Lemma Parent_stripTimes s :
  goquery.Parent (stripTimesDoc s) = stripTimesDoc (goquery.Parent s).
Proof. reflexivity. Qed.

Lemma Next_stripTimes s :
  goquery.Next (stripTimesDoc s) = stripTimesDoc (goquery.Next s).
Proof.
  unfold goquery.Next, stripTimesDoc. cbn [goquery.document goquery.Nodes].
  f_equal. apply flat_map_ext. intros [|i up]; [done|].
  by rewrite stripTimes_childrenAt, stripTimes_elementsFrom.
Qed.

Lemma Prev_stripTimes s :
  goquery.Prev (stripTimesDoc s) = stripTimesDoc (goquery.Prev s).
Proof.
  unfold goquery.Prev, stripTimesDoc. cbn [goquery.document goquery.Nodes].
  f_equal. apply flat_map_ext. intros [|i up]; [done|].
  by rewrite stripTimes_childrenAt, stripTimes_elementsFrom.
Qed.

Lemma attrLookup_strip name attrs :
  goquery.attrLookup name
    (List.filter (fun kv => negb (isTimeKey kv.1)) attrs)
  = if isTimeKey name then None else goquery.attrLookup name attrs.
Proof.
  induction attrs as [|[k v] attrs IH]; [by destruct (isTimeKey name)|].
  cbn [List.filter goquery.attrLookup fst].
  destruct (isTimeKey k) eqn:Hk; cbn [negb goquery.attrLookup].
  - rewrite IH. destruct (isTimeKey name) eqn:Hn; [done|].
    destruct (String.eqb_spec k name) as [->|]; [congruence|done].
  - rewrite IH. destruct (String.eqb_spec k name) as [->|]; [by rewrite Hk|done].
Qed.

Lemma AttrOr_stripTimes s name d :
  goquery.AttrOr (stripTimesDoc s) name d
  = if isTimeKey name then d else goquery.AttrOr s name d.
Proof.
  unfold goquery.AttrOr, stripTimesDoc. cbn [goquery.document goquery.Nodes].
  destruct (goquery.Nodes s) as [|loc l]; [by destruct (isTimeKey name)|].
  rewrite stripTimes_nodeAt.
  destruct (goquery.nodeAt (goquery.document s) loc) as [[tag attrs kids|?|?|?]|];
    cbn [fmap option_fmap option_map stripTimes];
    try by destruct (isTimeKey name).
  rewrite attrLookup_strip. by destruct (isTimeKey name).
Qed.

(** Without timestamp attributes the extractor prints nothing and builds
    the same records, their instants left out. *)
Lemma linkBookmark_stripTimes aNode :
  linkBookmark (stripTimesDoc aNode) = (eraseTimes (linkBookmark aNode).1, []).
Proof.
  unfold linkBookmark, bind, ret. cbn [fst snd].
  rewrite !AttrOr_stripTimes, Text_stripTimes. reflexivity.
Qed.

Lemma eachDT_stripTimes dtNodes acc :
  eachDT (stripTimesDoc <$> dtNodes) (eraseTimes <$> acc)
  = (eraseTimes <$> (eachDT dtNodes acc).1, []).
Proof.
  revert acc. induction dtNodes as [|dt rest IH]; intros acc; [done|].
  rewrite fmap_cons. cbn [eachDT].
  rewrite Children_stripTimes, First_stripTimes, Is_stripTimes.
  destruct (goquery.Is _ _); [|apply IH].
  unfold bind. rewrite linkBookmark_stripTimes. cbn [fst snd].
  specialize (IH (acc ++ [(linkBookmark (goquery.First (goquery.Children dt))).1])).
  rewrite fmap_app in IH. cbn [fmap list_fmap] in IH. by rewrite IH.
Qed.

Lemma folderBookmark_stripTimes header :
  folderBookmark (stripTimesDoc header)
  = (eraseTimes (folderBookmark header).1, []).
Proof.
  unfold folderBookmark, bind, ret. cbn [fst snd].
  rewrite !AttrOr_stripTimes, Text_stripTimes, Next_stripTimes, Is_stripTimes.
  rewrite !Parent_stripTimes, Prev_stripTimes, !Is_stripTimes, Text_stripTimes.
  rewrite ChildrenFiltered_stripTimes, each_stripTimes.
  cbn [isTimeKey String.eqb Ascii.eqb Bool.eqb orb].
  pose proof (eachDT_stripTimes
    (goquery.each (goquery.ChildrenFiltered (goquery.Next header) "DT")) [])
    as Hdt. cbn [fmap list_fmap] in Hdt.
  destruct (goquery.Is (goquery.Next header) "DL").
  - rewrite Hdt. reflexivity.
  - reflexivity.
Qed.

Lemma eachH3_stripTimes headers acc :
  eachH3 (stripTimesDoc <$> headers) (eraseTimes <$> acc)
  = (eraseTimes <$> (eachH3 headers acc).1, []).
Proof.
  revert acc. induction headers as [|h rest IH]; intros acc; [done|].
  rewrite fmap_cons. cbn [eachH3]. unfold bind.
  rewrite folderBookmark_stripTimes. cbn [fst snd].
  specialize (IH (acc ++ [(folderBookmark h).1])).
  rewrite fmap_app in IH. cbn [fmap list_fmap] in IH. by rewrite IH.
Qed.

Lemma parseBookmarks_stripTimes doc :
  parseBookmarks (stripTimesDoc doc)
  = (eraseTimes <$> (parseBookmarks doc).1, []).
Proof.
  unfold parseBookmarks. rewrite Find_stripTimes, each_stripTimes.
  apply (eachH3_stripTimes _ []).
Qed.

(** The loop of the slice revisions appends one record for each header. *)
Lemma eachH3_records headers acc :
  (eachH3 headers acc).1 = acc ++ ((fun h => (folderBookmark h).1) <$> headers).
Proof.
  revert acc. induction headers as [|h rest IH]; intros acc; cbn [eachH3].
  - by rewrite app_nil_r.
  - unfold bind. cbn [fst]. rewrite IH, <- app_assoc. done.
Qed.

Lemma eachH3_length headers acc :
  length (eachH3 headers acc).1 = (length acc + length headers)%nat.
Proof.
  revert acc. induction headers as [|h rest IH]; intros acc; cbn [eachH3].
  - simpl. lia.
  - unfold bind. cbn [fst]. rewrite IH, length_app. simpl. lia.
Qed.

Lemma parseUintLoop_not_digits s n :
  forallb strconv.isDigit (list_ascii_of_string s) = false ->
  ∃ e, strconv.parseUintLoop s n = inl e.
Proof.
  revert n. induction s as [|c s IH]; intros n; [done|].
  cbn [list_ascii_of_string forallb strconv.parseUintLoop].
  destruct (strconv.isDigit c); cbn [andb]; [|by eexists].
  intros Hs. destruct (_ >=? _)%Z; [by eexists|].
  destruct (_ >? _)%Z; [by eexists|]. by apply IH.
Qed.

Lemma ParseInt_not_decimal s :
  s ≠ "" -> isDecimal s = false -> ∃ e, strconv.ParseInt s = inl e.
Proof.
  intros Hs Hdec. unfold strconv.ParseInt.
  destruct s as [|c s]; [done|]. unfold isDecimal in Hdec.
  destruct (strconv.splitSign (String c s)) as [digits neg]. cbn [fst] in Hdec.
  unfold strconv.ParseUint. destruct digits as [|d digits]; [by eexists|].
  destruct (parseUintLoop_not_digits (String d digits) 0%Z Hdec) as [e ->].
  destruct e; by eexists.
Qed.

(** ** A timestamp that fails changes nothing else *)

Lemma blankFailed_isElement n : html.isElement (blankFailed n) = html.isElement n.
Proof. by destruct n. Qed.

Lemma blankFailed_matchNode selector n :
  goquery.matchNode selector (blankFailed n) = goquery.matchNode selector n.
Proof. by destruct n. Qed.

Lemma blankFailed_textOf n : goquery.textOf (blankFailed n) = goquery.textOf n.
Proof.
  induction n as [tag attrs kids IH|?|?|?] using Node_ind; try done.
  cbn [blankFailed]. rewrite !textOf_element.
  induction IH as [|c kids Hc _ IHk]; [done|]. simpl. by rewrite Hc, IHk.
Qed.

Lemma blankFailed_matchAll selector n :
  ∀ loc, goquery.matchAll selector loc (blankFailed n)
         = goquery.matchAll selector loc n.
Proof.
  induction n as [tag attrs kids IH|?|?|?] using Node_ind; try done.
  intros loc. cbn [blankFailed]. rewrite !matchAll_element. f_equal.
  generalize 0%nat.
  induction IH as [|c kids Hc _ IHk]; intros i; [done|].
  cbn [map goquery.matchAllFrom]. by rewrite Hc, IHk.
Qed.

Lemma blankFailed_matchAllFrom selector loc i ns :
  goquery.matchAllFrom selector loc i (blankFailed <$> ns)
  = goquery.matchAllFrom selector loc i ns.
Proof.
  revert i. induction ns as [|c ns IH]; intros i; [done|].
  rewrite fmap_cons. cbn [goquery.matchAllFrom].
  by rewrite blankFailed_matchAll, IH.
Qed.

Lemma blankFailed_elementsFrom i ns :
  goquery.elementsFrom i (blankFailed <$> ns) = goquery.elementsFrom i ns.
Proof.
  revert i. induction ns as [|c ns IH]; intros i; [done|].
  rewrite fmap_cons. cbn [goquery.elementsFrom].
  by rewrite blankFailed_isElement, IH.
Qed.

Lemma blankFailed_nodeAtPath ns path :
  goquery.nodeAtPath (blankFailed <$> ns) path
  = blankFailed <$> goquery.nodeAtPath ns path.
Proof.
  revert ns. induction path as [|i rest IH]; intros ns; [done|].
  cbn [goquery.nodeAtPath]. rewrite list_lookup_fmap.
  destruct (ns !! i) as [n|]; [|done]. cbn [fmap option_fmap option_map].
  destruct rest as [|i' rest']; [done|].
  destruct n as [tag attrs kids|?|?|?]; try done.
  cbn [blankFailed]. apply (IH kids).
Qed.

Lemma blankFailed_nodeAt doc loc :
  goquery.nodeAt (blankFailed <$> doc) loc = blankFailed <$> goquery.nodeAt doc loc.
Proof. apply blankFailed_nodeAtPath. Qed.

Lemma blankFailed_childrenAt doc loc :
  goquery.childrenAt (blankFailed <$> doc) loc
  = blankFailed <$> goquery.childrenAt doc loc.
Proof.
  unfold goquery.childrenAt. destruct loc as [|i up]; [done|].
  rewrite blankFailed_nodeAt.
  by destruct (goquery.nodeAt doc (i :: up)) as [[tag attrs kids|?|?|?]|].
Qed.

Lemma blankFailed_matchLoc doc selector loc :
  goquery.matchLoc (blankFailed <$> doc) selector loc
  = goquery.matchLoc doc selector loc.
Proof.
  unfold goquery.matchLoc. rewrite blankFailed_nodeAt.
  destruct (goquery.nodeAt doc loc) as [n|]; [|done].
  apply blankFailed_matchNode.
Qed.

Lemma Find_blankFailed s selector :
  goquery.Find (blankFailedDoc s) selector = blankFailedDoc (goquery.Find s selector).
Proof.
  unfold goquery.Find, blankFailedDoc. cbn [goquery.document goquery.Nodes].
  f_equal. apply flat_map_ext. intros loc.
  by rewrite blankFailed_childrenAt, blankFailed_matchAllFrom.
Qed.

Lemma each_blankFailed s :
  goquery.each (blankFailedDoc s) = blankFailedDoc <$> goquery.each s.
Proof.
  unfold goquery.each, blankFailedDoc. cbn [goquery.document goquery.Nodes].
  induction (goquery.Nodes s) as [|loc l IH]; [done|].
  rewrite !fmap_cons. by f_equal.
Qed.

Lemma Text_blankFailed s : goquery.Text (blankFailedDoc s) = goquery.Text s.
Proof.
  unfold goquery.Text, blankFailedDoc. cbn [goquery.document goquery.Nodes].
  induction (goquery.Nodes s) as [|loc l IH]; [done|]. cbn [foldr].
  rewrite IH, blankFailed_nodeAt.
  destruct (goquery.nodeAt (goquery.document s) loc) as [n|]; [|done].
  cbn [fmap option_fmap option_map]. by rewrite blankFailed_textOf.
Qed.

Lemma Is_blankFailed s selector :
  goquery.Is (blankFailedDoc s) selector = goquery.Is s selector.
Proof.
  unfold goquery.Is, blankFailedDoc. cbn [goquery.document goquery.Nodes].
  induction (goquery.Nodes s) as [|loc l IH]; [done|]. cbn [existsb].
  by rewrite IH, blankFailed_matchLoc.
Qed.

Lemma Children_blankFailed s :
  goquery.Children (blankFailedDoc s) = blankFailedDoc (goquery.Children s).
Proof.
  unfold goquery.Children, blankFailedDoc. cbn [goquery.document goquery.Nodes].
  f_equal. apply flat_map_ext. intros loc.
  by rewrite blankFailed_childrenAt, blankFailed_elementsFrom.
Qed.

Lemma ChildrenFiltered_blankFailed s selector :
  goquery.ChildrenFiltered (blankFailedDoc s) selector
  = blankFailedDoc (goquery.ChildrenFiltered s selector).
Proof.
  unfold goquery.ChildrenFiltered. rewrite Children_blankFailed.
  unfold blankFailedDoc. cbn [goquery.document goquery.Nodes].
  f_equal. apply List.filter_ext. intros loc. apply blankFailed_matchLoc.
Qed.

Lemma First_blankFailed s :
  goquery.First (blankFailedDoc s) = blankFailedDoc (goquery.First s).
Proof. reflexivity. Qed.

Lemma Parent_blankFailed s :
  goquery.Parent (blankFailedDoc s) = blankFailedDoc (goquery.Parent s).
Proof. reflexivity. Qed.

Lemma Next_blankFailed s :
  goquery.Next (blankFailedDoc s) = blankFailedDoc (goquery.Next s).
Proof.
  unfold goquery.Next, blankFailedDoc. cbn [goquery.document goquery.Nodes].
  f_equal. apply flat_map_ext. intros [|i up]; [done|].
  by rewrite blankFailed_childrenAt, blankFailed_elementsFrom.
Qed.

Lemma Prev_blankFailed s :
  goquery.Prev (blankFailedDoc s) = blankFailedDoc (goquery.Prev s).
Proof.
  unfold goquery.Prev, blankFailedDoc. cbn [goquery.document goquery.Nodes].
  f_equal. apply flat_map_ext. intros [|i up]; [done|].
  by rewrite blankFailed_childrenAt, blankFailed_elementsFrom.
Qed.

Lemma blankFailedAttr_key kv : (blankFailedAttr kv).1 = kv.1.
Proof.
  unfold blankFailedAttr. destruct (isTimeKey kv.1); [|done].
  by destruct (parseTime kv.2).1.
Qed.

Lemma attrLookup_blank name attrs :
  goquery.attrLookup name (map blankFailedAttr attrs)
  = (fun v => (blankFailedAttr (name, v)).2) <$> goquery.attrLookup name attrs.
Proof.
  induction attrs as [|[k v] attrs IH]; [done|].
  cbn [map goquery.attrLookup].
  pose proof (blankFailedAttr_key (k, v)) as Hk. cbn [fst] in Hk.
  destruct (blankFailedAttr (k, v)) as [k' v'] eqn:E. cbn [fst] in Hk. subst k'.
  destruct (String.eqb_spec k name) as [->|_]; [|done].
  cbn [fmap option_fmap option_map]. by rewrite E.
Qed.

Lemma AttrOr_blankFailed s name :
  goquery.AttrOr (blankFailedDoc s) name ""
  = (blankFailedAttr (name, goquery.AttrOr s name "")).2.
Proof.
  assert ((blankFailedAttr (name, "")).2 = "") as Hd.
  { unfold blankFailedAttr. cbn [fst snd]. by destruct (isTimeKey name). }
  unfold goquery.AttrOr, blankFailedDoc. cbn [goquery.document goquery.Nodes].
  destruct (goquery.Nodes s) as [|loc l]; [done|].
  rewrite blankFailed_nodeAt.
  destruct (goquery.nodeAt (goquery.document s) loc) as [[tag attrs kids|?|?|?]|];
    cbn [fmap option_fmap option_map blankFailed]; try done.
  rewrite attrLookup_blank. by destruct (goquery.attrLookup name attrs).
Qed.

(** An emptied timestamp gives the same instant, and no line. *)
Lemma parseTime_blank name v :
  isTimeKey name = true ->
  parseTime (blankFailedAttr (name, v)).2 = ((parseTime v).1, []).
Proof.
  intros Hk. unfold blankFailedAttr. cbn [fst snd]. rewrite Hk.
  unfold parseTime. destruct (String.length v =? 0)%nat eqn:El; [done|].
  destruct (strconv.ParseInt v) as [e|ts] eqn:Ep; cbn [fst snd]; [done|].
  by rewrite El, Ep.
Qed.

Lemma parseTime_stamp_blankFailed s name :
  isTimeKey name = true ->
  parseTime (goquery.AttrOr (blankFailedDoc s) name "")
  = ((parseTime (goquery.AttrOr s name "")).1, []).
Proof. intros Hk. rewrite AttrOr_blankFailed. by apply parseTime_blank. Qed.

Lemma linkBookmark_blankFailed aNode :
  linkBookmark (blankFailedDoc aNode) = ((linkBookmark aNode).1, []).
Proof.
  unfold linkBookmark, bind, ret. cbn [fst snd].
  rewrite !parseTime_stamp_blankFailed by done.
  rewrite !AttrOr_blankFailed, Text_blankFailed. reflexivity.
Qed.

Lemma eachDT_blankFailed dtNodes acc :
  eachDT (blankFailedDoc <$> dtNodes) acc = ((eachDT dtNodes acc).1, []).
Proof.
  revert acc. induction dtNodes as [|dt rest IH]; intros acc; [done|].
  rewrite fmap_cons. cbn [eachDT].
  rewrite Children_blankFailed, First_blankFailed, Is_blankFailed.
  destruct (goquery.Is _ _); [|apply IH].
  unfold bind. rewrite linkBookmark_blankFailed. cbn [fst snd].
  by rewrite IH.
Qed.

Lemma folderBookmark_blankFailed header :
  folderBookmark (blankFailedDoc header) = ((folderBookmark header).1, []).
Proof.
  unfold folderBookmark, bind, ret. cbn [fst snd].
  rewrite !parseTime_stamp_blankFailed by done.
  rewrite Text_blankFailed, Next_blankFailed, Is_blankFailed.
  rewrite !Parent_blankFailed, Prev_blankFailed, !Is_blankFailed, Text_blankFailed.
  rewrite ChildrenFiltered_blankFailed, each_blankFailed.
  destruct (goquery.Is (goquery.Next header) "DL").
  - by rewrite eachDT_blankFailed.
  - reflexivity.
Qed.

Lemma eachH3_blankFailed headers acc :
  eachH3 (blankFailedDoc <$> headers) acc = ((eachH3 headers acc).1, []).
Proof.
  revert acc. induction headers as [|h rest IH]; intros acc; [done|].
  rewrite fmap_cons. cbn [eachH3]. unfold bind.
  rewrite folderBookmark_blankFailed. cbn [fst snd]. by rewrite IH.
Qed.

(** A timestamp that fails has the effect of an empty one, and no other:
    the document whose failing timestamps are emptied gives the same
    records, and no line. *)
Lemma parseBookmarks_blankFailed doc :
  parseBookmarks (blankFailedDoc doc) = ((parseBookmarks doc).1, []).
Proof.
  unfold parseBookmarks. rewrite Find_blankFailed, each_blankFailed.
  apply eachH3_blankFailed.
Qed.

(** The lines printed are those of the timestamps read, in order. *)
Lemma linkBookmark_read aNode :
  (linkBookmark aNode).2 = flat_map (fun s => (parseTime s).2) (stamps aNode).
Proof. unfold linkBookmark, bind, ret, stamps. cbn [fst snd flat_map]. done. Qed.

Lemma eachDT_read dtNodes acc :
  let aNodes := List.filter (fun aNode => goquery.Is aNode "A")
                  ((fun dtNode => goquery.First (goquery.Children dtNode))
                     <$> dtNodes) in
  eachDT dtNodes acc
  = (acc ++ ((fun aNode => (linkBookmark aNode).1) <$> aNodes),
     flat_map (fun s => (parseTime s).2) (flat_map stamps aNodes)).
Proof.
  revert acc. induction dtNodes as [|dt rest IH]; intros acc; cbn zeta in *.
  - cbn. by rewrite app_nil_r.
  - rewrite fmap_cons. cbn [eachDT List.filter].
    destruct (goquery.Is (goquery.First (goquery.Children dt)) "A").
    + unfold bind. rewrite IH. cbn [fst snd]. rewrite fmap_cons.
      cbn [flat_map]. rewrite flat_map_app, <- app_assoc.
      by rewrite linkBookmark_read.
    + apply IH.
Qed.

Lemma folderBookmark_read header :
  (folderBookmark header).2
  = flat_map (fun s => (parseTime s).2)
             (stamps header ++ flat_map stamps (linkNodes header))
  ∧ recordRead header (folderBookmark header).1.
Proof.
  unfold folderBookmark, bind, ret, recordRead, instantsRead, linkNodes.
  cbn [fst snd AddAt UpdateAt Bookmarks]. rewrite flat_map_app.
  unfold stamps at 1. cbn [flat_map]. rewrite !app_nil_r, <- app_assoc.
  destruct (goquery.Is (goquery.Next header) "DL").
  - rewrite eachDT_read. cbn [fst snd app]. split; [done|]. split; [done|].
    apply Forall2_fmap_r, Forall_Forall2_diag, Forall_forall. by intros a _.
  - cbn [fst snd flat_map]. rewrite app_nil_r. repeat split. constructor.
Qed.

Lemma parseBookmarks_read doc :
  (parseBookmarks doc).2
  = flat_map (fun s => (parseTime s).2) (timestampsRead doc).
Proof.
  unfold parseBookmarks, timestampsRead. generalize (@nil Bookmark).
  induction (goquery.each _) as [|h rest IH]; intros acc; [done|].
  cbn [eachH3 flat_map]. unfold bind. cbn [snd].
  rewrite IH, flat_map_app. f_equal. apply folderBookmark_read.
Qed.

Lemma parseBookmarks_recordRead doc :
  Forall2 recordRead (goquery.each (goquery.Find doc "H3")) (parseBookmarks doc).1.
Proof.
  unfold parseBookmarks. rewrite eachH3_records, app_nil_l.
  apply Forall2_fmap_r, Forall_Forall2_diag, Forall_forall.
  intros h _. apply folderBookmark_read.
Qed.

(** C6.  [parseTime] returns for every string: no instant and no line for
    the empty string; no instant and one line, the error of [ParseInt],
    for a string that is not empty and is no decimal number.  And the
    extractor goes on whatever the timestamps hold.  It builds one record
    for each [H3]; the records are, their instants put aside, those it
    builds when the document has no timestamp attribute at all; every
    record has the instants [parseTime] gives for the attributes of its
    own header, and every link those of its own element, so that a
    failure leaves every other instant as it is: the document whose
    failing timestamps are emptied gives the very same records.  What is
    printed is, in the order of the visit, what [parseTime] prints for
    each timestamp read: one line for each failure, and nothing else. *)
Theorem timestamp_failure_not_fatal :
  parseTime "" = (None, [])
  ∧ (∀ s, s ≠ "" -> isDecimal s = false ->
       ∃ e, parseTime s
            = (None, [LNumError "error parsing timestamp:" "ParseInt" s e]))
  ∧ (∀ doc,
       length (parseBookmarks doc).1
       = length (goquery.Nodes (goquery.Find doc "H3"))
       ∧ eraseTimes <$> (parseBookmarks doc).1
         = (parseBookmarks (stripTimesDoc doc)).1
       ∧ Forall isTimestampError (parseBookmarks doc).2
       ∧ Forall2 recordRead (goquery.each (goquery.Find doc "H3"))
                 (parseBookmarks doc).1
       ∧ parseBookmarks (blankFailedDoc doc) = ((parseBookmarks doc).1, [])
       ∧ (parseBookmarks doc).2
         = flat_map (fun s => (parseTime s).2) (timestampsRead doc)).
Proof.
  split; [done|]. split.
  - intros s Hs Hdec. unfold parseTime.
    destruct s as [|c s]; [done|]. cbn [String.length Nat.eqb].
    destruct (ParseInt_not_decimal (String c s) Hs Hdec) as [e ->]. by exists e.
  - intros doc. repeat split.
    + unfold parseBookmarks. rewrite eachH3_length. unfold goquery.each.
      by rewrite length_fmap.
    + by rewrite parseBookmarks_stripTimes.
    + apply parseBookmarks_lines.
    + apply parseBookmarks_recordRead.
    + apply parseBookmarks_blankFailed.
    + apply parseBookmarks_read.
Qed.

Lemma timestamp_failure_not_fatal_witness :
  ∃ e, parseTime "2021-10-17"
       = (None, [LNumError "error parsing timestamp:" "ParseInt" "2021-10-17" e]).
Proof.
  apply (proj1 (proj2 timestamp_failure_not_fatal)); [done|reflexivity].
Defined.

(** ** A well-formed document *)

Lemma append_empty_r s : s +:+ "" = s.
Proof.
  induction s as [|c s IH]; [done|].
  change (String c (s +:+ "") = String c s). by rewrite IH.
Qed.

Lemma smallDocument_records k ra R a1 t1 a2 t2 sa S a3 t3 :
  k <= 2 ->
  (parseBookmarks (smallDocument k ra R a1 t1 a2 t2 sa S a3 t3)).1
  = [folderRecord ra R "" [linkRecord a1 t1; linkRecord a2 t2];
     folderRecord sa S R [linkRecord a3 t3]].
Proof.
  intros Hk.
  destruct k as [|[|[|k]]]; [| | |lia];
    lazy -[parseTime goquery.attrLookup String.append default];
    by rewrite ?append_empty_r.
Qed.

(** The build on a root and one record under it. *)
Lemma buildTree_root_and_child root sub :
  Parent root = "" -> Parent sub = Title root ->
  Title root ≠ "" -> Title sub ≠ "" -> Title root ≠ Title sub ->
  buildTree 2 [root; sub] = Some ([], appendChild root sub).
Proof.
  intros Hroot Hsub HR HS HRS. unfold buildTree. cbn [findRootFolder].
  rewrite Hroot. cbn [String.eqb buildSubTree scanChildren].
  rewrite Hroot, Hsub, String.eqb_refl.
  assert (String.eqb "" (Title root) = false) as -> by by apply String.eqb_neq.
  assert (String.eqb "" (Title sub) = false) as -> by by apply String.eqb_neq.
  assert (String.eqb (Title root) (Title sub) = false) as ->
    by by apply String.eqb_neq.
  reflexivity.
Qed.

(** When the subfolder bears the title of the root folder, the build does
    not return: [sameTitleDocument] yields no root node at all. *)
Lemma same_title_subfolder_counterexample :
  ¬ (∃ fuel out tree,
       buildTree fuel (parseBookmarks sameTitleDocument).1 = Some (out, tree)
       ∧ Title tree = "News" ∧ length (Bookmarks tree) = 3).
Proof.
  intros (fuel & out & tree & H & _). revert H.
  unfold sameTitleDocument. rewrite smallDocument_records by lia.
  unfold buildTree. cbn [findRootFolder folderRecord Parent String.eqb].
  rewrite (reach_cycle_diverges _ _
             (folderRecord [] "News" "News"
                [linkRecord [("href", "https://c.example")] "c"])); [done| |].
  - apply rtc_once. split; [|done]. apply elem_of_cons. right. left.
  - apply tc_once. split; [|done]. apply elem_of_cons. right. left.
Qed.

(** C2, as the code has it.  For a document with one root folder that
    holds two links and one subfolder with one link, wherever the
    subfolder stands among the entries, and provided the titles of the two
    folders are not empty and differ, the extractor builds two records and
    the build on them returns one node: the root folder with three
    children, its two links and then the subfolder, which has one child. *)
Theorem wellformed_document_tree
  (k : nat) (ra : list (string * string)) (R : string)
  (a1 : list (string * string)) (t1 : string)
  (a2 : list (string * string)) (t2 : string)
  (sa : list (string * string)) (S : string)
  (a3 : list (string * string)) (t3 : string) :
  k <= 2 -> R ≠ "" -> S ≠ "" -> R ≠ S ->
  let doc := smallDocument k ra R a1 t1 a2 t2 sa S a3 t3 in
  let sub := folderRecord sa S R [linkRecord a3 t3] in
  let tree := folderRecord ra R "" [linkRecord a1 t1; linkRecord a2 t2; sub] in
  buildTree 2 (parseBookmarks doc).1 = Some ([], tree)
  ∧ Title tree = R
  ∧ length (Bookmarks tree) = 3
  ∧ sub ∈ Bookmarks tree
  ∧ Title sub = S
  ∧ length (Bookmarks sub) = 1.
Proof.
  intros Hk HR HS HRS doc sub tree. subst doc.
  rewrite smallDocument_records by done.
  rewrite buildTree_root_and_child by done.
  repeat split. apply elem_of_cons. right. apply elem_of_cons. right. left.
Qed.

Lemma wellformed_document_tree_witness :
  let doc := smallDocument 1 [("add_date", "1634454000")] "Bookmarks bar"
               [("href", "https://a.example")] "a"
               [("href", "https://b.example")] "b"
               [] "News" [("href", "https://c.example")] "c" in
  let sub := folderRecord [] "News" "Bookmarks bar"
               [linkRecord [("href", "https://c.example")] "c"] in
  let tree := folderRecord [("add_date", "1634454000")] "Bookmarks bar" ""
                [linkRecord [("href", "https://a.example")] "a";
                 linkRecord [("href", "https://b.example")] "b"; sub] in
  buildTree 2 (parseBookmarks doc).1 = Some ([], tree)
  ∧ Title tree = "Bookmarks bar"
  ∧ length (Bookmarks tree) = 3
  ∧ sub ∈ Bookmarks tree
  ∧ Title sub = "News"
  ∧ length (Bookmarks sub) = 1.
Proof.
  apply (wellformed_document_tree 1); [lia|done|done|done].
Defined.

(** ** Shape of the extracted collection *)

Lemma eachDT_links dtNodes acc :
  Forall (fun c => Parent c = "" ∧ Bookmarks c = []) acc ->
  Forall (fun c => Parent c = "" ∧ Bookmarks c = []) (eachDT dtNodes acc).1.
Proof.
  revert acc. induction dtNodes as [|dt rest IH]; intros acc Hacc; [done|].
  cbn [eachDT]. destruct (goquery.Is _ _); [|by apply IH].
  unfold bind. cbn [fst]. apply IH, Forall_app. split; [done|].
  by constructor.
Qed.

Lemma folderBookmark_links header :
  Forall (fun c => Parent c = "" ∧ Bookmarks c = [])
         (Bookmarks (folderBookmark header).1).
Proof.
  unfold folderBookmark, bind, ret. cbn [fst Bookmarks].
  destruct (goquery.Is _ _); [by apply eachDT_links|constructor].
Qed.

Lemma links_unparented b c :
  Forall (fun c => Parent c = "" ∧ Bookmarks c = []) (Bookmarks b) ->
  c ∈ flat_map nodes (Bookmarks b) -> Parent c = "".
Proof.
  induction 1 as [|l ls [Hp Hb] _ IH]; cbn [flat_map]; [by intros ?%elem_of_nil|].
  rewrite nodes_unfold, Hb. cbn [flat_map app].
  intros [->|Hc]%elem_of_cons; [done|by apply IH].
Qed.

(** The records of the extractor carry links only: their children have no
    parent title and no children. *)
Lemma parseBookmarks_inlineUnparented doc :
  inlineUnparented (parseBookmarks doc).1.
Proof.
  assert (∀ headers acc,
            Forall (fun b => Forall (fun c => Parent c = "" ∧ Bookmarks c = [])
                                    (Bookmarks b)) acc ->
            Forall (fun b => Forall (fun c => Parent c = "" ∧ Bookmarks c = [])
                                    (Bookmarks b)) (eachH3 headers acc).1) as H.
  { induction headers as [|h rest IH]; intros acc Hacc; [done|].
    cbn [eachH3]. unfold bind. cbn [fst]. apply IH, Forall_app.
    split; [done|]. constructor; [apply folderBookmark_links|constructor]. }
  intros b c Hb Hc. unfold parseBookmarks in Hb.
  specialize (H (goquery.each (goquery.Find doc "H3")) [] ltac:(constructor)).
  rewrite Forall_forall in H. apply (links_unparented b); [by apply H|done].
Qed.

Lemma parseBookmarksMap_inlineUnparented doc bookmarks :
  rangeOrder (parseBookmarksMap doc).1 bookmarks -> inlineUnparented bookmarks.
Proof.
  assert (∀ headers (m : gmap string Bookmark),
            map_Forall (fun _ b => Forall (fun c => Parent c = "" ∧ Bookmarks c = [])
                                          (Bookmarks b)) m ->
            map_Forall (fun _ b => Forall (fun c => Parent c = "" ∧ Bookmarks c = [])
                                          (Bookmarks b)) (eachH3Map headers m).1) as H.
  { induction headers as [|h rest IH]; intros m Hm; [done|].
    cbn [eachH3Map]. unfold bind. cbn [fst]. apply IH.
    apply map_Forall_insert_2; [apply folderBookmark_links|done]. }
  intros Horder b c Hb Hc. unfold rangeOrder in Horder. rewrite Horder in Hb.
  apply list_elem_of_fmap in Hb as ([k b'] & -> & Hkb%elem_of_map_to_list).
  apply (links_unparented b'); [|done].
  apply (H (goquery.each (goquery.Find doc "H3")) ∅ (map_Forall_empty _) k b' Hkb).
Qed.

(** ** Determinism *)

(** The revisions with a slice: what [main] prints is a function of the
    document and of the location; the fuel that lets the build return has
    no part in it. *)
Lemma main_deterministic Local fuel1 fuel2 doc out1 out2 :
  main Local fuel1 doc = Some out1 -> main Local fuel2 doc = Some out2 ->
  out1 = out2.
Proof.
  unfold main, mainFrom.
  destruct (buildTree fuel1 _) as [[o1 t1]|] eqn:E1; [|done].
  destruct (buildTree fuel2 _) as [[o2 t2]|] eqn:E2; [|done].
  pose proof (buildTree_det _ _ _ _ _ E1 E2) as [= -> ->]. congruence.
Qed.

(** C5 on the revision with a map: two runs of [main] on
    [twoFoldersDocument] may print different JSON texts, the subfolders
    coming in the order in which the iteration over the map meets their
    records. *)
Theorem map_revision_output_varies :
  mainMap time.UTC 2 twoFoldersDocument
    (Some [LJSON (JObject
       [("title", JString "Root");
        ("bookmarks", JArray [JObject [("title", JString "A")];
                              JObject [("title", JString "B")]])])])
  ∧ mainMap time.UTC 2 twoFoldersDocument
    (Some [LJSON (JObject
       [("title", JString "Root");
        ("bookmarks", JArray [JObject [("title", JString "B")];
                              JObject [("title", JString "A")]])])]).
Proof.
  split.
  - assert (rangeOrder (parseBookmarksMap twoFoldersDocument).1
              [folder "Root" "" []; folder "A" "Root" []; folder "B" "Root" []])
      as Horder.
    { unfold rangeOrder. vm_compute. apply perm_swap. }
    apply (mainMap_run time.UTC 2) in Horder. exact Horder.
  - assert (rangeOrder (parseBookmarksMap twoFoldersDocument).1
              [folder "Root" "" []; folder "B" "Root" []; folder "A" "Root" []])
      as Horder.
    { unfold rangeOrder. vm_compute.
      apply (Permutation_app_comm [_; _] [_]). }
    apply (mainMap_run time.UTC 2) in Horder. exact Horder.
Qed.

(** The map keeps one record for each title: of two folders with one
    title, the later one in the document replaces the earlier one. *)
Lemma eachH3Map_titles headers m :
  (∀ k b, m !! k = Some b -> Title b = k) ->
  ∀ k b, (eachH3Map headers m).1 !! k = Some b -> Title b = k.
Proof.
  revert m. induction headers as [|h rest IH]; intros m Hm; [done|].
  cbn [eachH3Map]. unfold bind. cbn [fst]. apply IH.
  intros k b. rewrite lookup_insert. case_decide; [|by apply Hm].
  by intros [= <-].
Qed.

Lemma map_revision_titles_unique doc bookmarks :
  rangeOrder (parseBookmarksMap doc).1 bookmarks -> NoDup (Title <$> bookmarks).
Proof.
  unfold rangeOrder. intros ->.
  assert ((Title <$> (map_to_list (parseBookmarksMap doc).1).*2)
          = (map_to_list (parseBookmarksMap doc).1).*1) as ->.
  { rewrite <- list_fmap_compose. apply list_fmap_ext.
    intros i [k b] Hkb%list_elem_of_lookup_2%elem_of_map_to_list. simpl.
    apply (eachH3Map_titles (goquery.each (goquery.Find doc "H3")) ∅);
      [|exact Hkb].
    intros k' b'. by rewrite lookup_empty. }
  apply NoDup_fst_map_to_list.
Qed.

Example two_works_extracted :
  (parseBookmarks twoWorksDocument).1
  = [folder "Root" "" [];
     folder "Work" "Root" [link "a" "https://a.example"];
     folder "Work" "Root" [link "b" "https://b.example"]]
  ∧ (parseBookmarksMap twoWorksDocument).1
    = {[ "Root" := folder "Root" "" [];
         "Work" := folder "Work" "Root" [link "b" "https://b.example"] ]}.
Proof. split; vm_compute; reflexivity. Qed.

(** * Further properties *)

(** ** The timestamps [parseTime] accepts *)

Lemma isDigit_range c :
  strconv.isDigit c = true -> (0 <= strconv.byte c - 48 <= 9)%Z.
Proof. unfold strconv.isDigit. lia. Qed.

Lemma fold_value_ge l n :
  (0 <= n)%Z -> forallb strconv.isDigit l = true ->
  (n <= fold_left (fun n c => n * 10 + (strconv.byte c - 48)) l n)%Z.
Proof.
  revert n. induction l as [|c l IH]; intros n Hn Hl; simpl in *; [lia|].
  apply andb_true_iff in Hl as [Hc Hl]. apply isDigit_range in Hc.
  etrans; [|apply IH; [lia|done]]. lia.
Qed.

Lemma parseUintLoop_value s n :
  (0 <= n <= strconv.maxUint64)%Z ->
  forallb strconv.isDigit (list_ascii_of_string s) = true ->
  strconv.parseUintLoop s n
  = let v := fold_left (fun n c => (n * 10 + (strconv.byte c - 48))%Z)
                       (list_ascii_of_string s) n in
    if (v <=? strconv.maxUint64)%Z then inr v else inl ErrRange.
Proof.
  revert n. induction s as [|c s IH]; intros n Hn Hs.
  - simpl. destruct (Z.leb_spec n strconv.maxUint64); [done|lia].
  - cbn [list_ascii_of_string forallb] in Hs.
    apply andb_true_iff in Hs as [Hc Hs].
    cbn [strconv.parseUintLoop list_ascii_of_string fold_left]. rewrite Hc.
    pose proof (isDigit_range c Hc) as Hd.
    pose proof (fold_value_ge (list_ascii_of_string s)
                  (n * 10 + (strconv.byte c - 48)) ltac:(lia) Hs) as Hge.
    cbv zeta. unfold strconv.maxUint64 in *.
    set (n1 := (n * 10 + (strconv.byte c - 48))%Z) in *.
    assert ((2 ^ 64 - 1) `div` 10 + 1 = 1844674407370955162)%Z as Ecut by done.
    destruct (Z.geb_spec n ((2 ^ 64 - 1) `div` 10 + 1)) as [Hcut|Hcut].
    + destruct (Z.leb_spec (fold_left (λ n c, n * 10 + (strconv.byte c - 48))
                  (list_ascii_of_string s) n1) (2 ^ 64 - 1))%Z as [Hle|]; [|done].
      exfalso. unfold n1 in *. lia.
    + destruct (Z.gtb_spec n1 (2 ^ 64 - 1)) as [Hov|Hov].
      * destruct (Z.leb_spec (fold_left (λ n c, n * 10 + (strconv.byte c - 48))
                  (list_ascii_of_string s) n1) (2 ^ 64 - 1))%Z as [Hle|]; [lia|done].
      * rewrite IH; [done| |done]. unfold n1. lia.
Qed.
Lemma parseTime_decimal_eq (s : string) :
  isDecimal s = true ->
  parseTime s
  = if inInt64 (signedValue s) then (Some (signedValue s), [])
    else (None, [LNumError "error parsing timestamp:" "ParseInt" s ErrRange]).
Proof.
  unfold isDecimal, signedValue, parseTime, strconv.ParseInt.
  destruct (strconv.splitSign s) as [digits neg] eqn:Hsplit. cbn [fst].
  intros [Hne Hdig]%andb_true_iff.
  assert (s ≠ "") as Hs.
  { intros ->. by injection Hsplit as <- <-. }
  destruct s as [|c0 s0]; [done|]. cbn [String.length Nat.eqb].
  destruct digits as [|c digits]; [done|]. clear Hne.
  unfold strconv.ParseUint.
  rewrite parseUintLoop_value by (done || unfold strconv.maxUint64; lia).
  cbv zeta. fold (decimalValue (String c digits)).
  pose proof (fold_value_ge (list_ascii_of_string (String c digits)) 0
                ltac:(lia) Hdig) as Hge.
  fold (decimalValue (String c digits)) in Hge.
  set (v := decimalValue (String c digits)) in *.
  unfold inInt64, strconv.maxUint64.
  destruct (Z.leb_spec v (2 ^ 64 - 1)), neg; cbn [negb andb].
  all: repeat match goal with
       | |- context [(?a >=? ?b)%Z] => destruct (Z.geb_spec a b)
       | |- context [(?a >? ?b)%Z] => destruct (Z.gtb_spec a b)
       | |- context [(?a <=? ?b)%Z] => destruct (Z.leb_spec a b)
       | |- context [(?a <? ?b)%Z] => destruct (Z.ltb_spec a b)
       end; cbn [andb]; try reflexivity; lia.
Qed.

(** X1.  [parseTime] returns an instant exactly for a signed decimal
    string whose value lies in the range of [int64], the instant being
    that value, and then it prints nothing; for a decimal string whose
    value is out of that range it returns no instant and prints the range
    error of [ParseInt]. *)
Theorem parseTime_accepts (s : string) :
  (∀ t, (parseTime s).1 = Some t
        <-> isDecimal s = true ∧ signedValue s = t ∧ inInt64 t = true)
  ∧ (isDecimal s = true -> inInt64 (signedValue s) = false ->
     parseTime s
     = (None, [LNumError "error parsing timestamp:" "ParseInt" s ErrRange]))
  ∧ (is_Some (parseTime s).1 -> (parseTime s).2 = []).
Proof.
  destruct (isDecimal s) eqn:Hdec.
  - rewrite (parseTime_decimal_eq s Hdec).
    destruct (inInt64 (signedValue s)) eqn:Hin; cbn [fst snd].
    + split; [|done]. intros t. split.
      * by intros [= <-].
      * by intros (_ & <- & _).
    + split; [|split; [done|by intros [? ?]]]. intros t. split; [done|].
      intros (_ & <- & Ht). congruence.
  - assert ((parseTime s).1 = None) as Hnone.
    { destruct (decide (s = "")) as [->|Hs]; [done|].
      unfold parseTime. destruct s as [|c s]; [done|]. cbn [String.length Nat.eqb].
      by destruct (ParseInt_not_decimal (String c s) Hs Hdec) as [e ->]. }
    rewrite Hnone. split; [|split; [done|by intros [? ?]]].
    intros t. split; [done|]. by intros (? & _).
Qed.

Lemma parseTime_accepts_witness :
  parseTime "-9223372036854775809"
  = (None, [LNumError "error parsing timestamp:" "ParseInt"
                      "-9223372036854775809" ErrRange]).
Proof.
  apply (proj1 (proj2 (parseTime_accepts "-9223372036854775809")));
    reflexivity.
Defined.

(** ** What the build computes *)




(** X3.  The build invents no node: every node of the tree [buildTree]
    returns is the zero [Bookmark] of the missing root, or has the fields
    of a record of the collection or of a node such a record carried. *)
Theorem buildTree_nodes_from_collection
  (fuel : nat) (bs : list Bookmark) (out : list Line) (tree n : Bookmark) :
  buildTree fuel bs = Some (out, tree) -> n ∈ nodes tree ->
  (findRootFolder bs = None ∧ n = zeroBookmark)
  ∨ ∃ r m, r ∈ bs ∧ m ∈ nodes r ∧ shallow n = shallow m.
Proof.
  rewrite buildTree_erase. intros H Hn.
  destruct (buildTreeG fuel bs) as [[[o t] placed]|] eqn:HG; [|done].
  injection H as -> ->. pose proof HG as HG'. unfold buildTreeG in HG'.
  destruct (findRootFolder bs) as [root|].
  - right. destruct (buildSubTreeG fuel root bs) as [[t tr]|] eqn:E; [|done].
    injection HG' as <- <- <-.
    assert (shallow n ∈ shallow <$> flat_map nodes tr) as Hs.
    { rewrite <- (nodes_trace _ _ _ _ _ E). by apply list_elem_of_fmap_2. }
    apply list_elem_of_fmap in Hs as (m & Hnm & Hm).
    apply list_elem_of_In, in_flat_map in Hm as (r & Hr%list_elem_of_In & Hm).
    exists r, m. split; [|split; [by apply list_elem_of_In|done]].
    by apply (buildTreeG_placed_in _ _ _ _ _ _ HG).
  - left. injection HG' as <- <- <-. split; [done|].
    by apply list_elem_of_singleton in Hn.
Qed.

Lemma buildTree_nodes_from_collection_witness :
  (findRootFolder worksCollection = None ∧ link "b" "https://b.example" = zeroBookmark)
  ∨ ∃ r m, r ∈ worksCollection ∧ m ∈ nodes r
           ∧ shallow (link "b" "https://b.example") = shallow m.
Proof.
  apply (buildTree_nodes_from_collection 2 worksCollection [] worksTree).
  - vm_compute. reflexivity.
  - cbn. do 4 (apply elem_of_cons; right). left.
Defined.

(** X4.  An empty title is fatal: when the root reaches, through title
    linkage, a record with an empty title (the root itself included), that
    record adopts the root again and [buildTree] returns for no depth of
    recursion. *)
Theorem empty_title_never_returns (bs : list Bookmark) (root a : Bookmark) :
  findRootFolder bs = Some root -> rtc (adopts bs) root a -> Title a = "" ->
  ∀ fuel, buildTree fuel bs = None.
Proof.
  intros Hroot Hreach Ha fuel. unfold buildTree. rewrite Hroot.
  apply findRootFolder_Some in Hroot as (pre & post & -> & Hpar & _).
  rewrite (reach_cycle_diverges _ root root); [done|constructor|].
  eapply tc_rtc_l; [exact Hreach|]. apply tc_once. split; [|congruence].
  apply elem_of_app. right. left.
Qed.

Lemma empty_title_never_returns_witness :
  buildTree 1000 [folder "Root" "" []; folder "" "Root" []] = None.
Proof.
  apply (empty_title_never_returns _ (folder "Root" "" []) (folder "" "Root" [])).
  - reflexivity.
  - apply rtc_once. split; [|reflexivity]. apply elem_of_cons. right. left.
  - reflexivity.
Defined.

(** ** The two revisions of the extractor *)

Lemma eachH3_eachH3Map_lines headers acc m :
  (eachH3Map headers m).2 = (eachH3 headers acc).2.
Proof.
  revert acc m. induction headers as [|h rest IH]; intros acc m; [done|].
  cbn [eachH3 eachH3Map]. unfold bind. cbn [snd]. f_equal. apply IH.
Qed.

Lemma last_cons_inv {A} (x : A) l :
  last (x :: l) = match last l with Some y => Some y | None => Some x end.
Proof.
  destruct l as [|y l]; [done|]. change (last (x :: y :: l)) with (last (y :: l)).
  destruct (last (y :: l)) eqn:E; [done|]. by apply last_None in E.
Qed.

Lemma eachH3Map_lookup headers m t :
  (eachH3Map headers m).1 !! t
  = match lastTitled t ((fun h => (folderBookmark h).1) <$> headers) with
    | Some b => Some b
    | None => m !! t
    end.
Proof.
  revert m. induction headers as [|h rest IH]; intros m; [done|].
  cbn [eachH3Map]. unfold bind. cbn [fst]. rewrite IH, fmap_cons.
  unfold lastTitled. rewrite filter_cons.
  case_decide as Ht.
  - rewrite last_cons_inv.
    destruct (last _) as [b|]; [done|]. rewrite <- Ht. apply lookup_insert_eq.
  - destruct (last _) as [b|]; [done|]. by apply lookup_insert_ne.
Qed.

(** X5.  The revision with a map extracts the records of the revisions
    with a slice, keeping for each title the last record that bears it:
    an earlier folder with the same title is lost, with the links it
    carried.  Both print the same lines. *)
Theorem parseBookmarksMap_last_wins (doc : goquery.Selection) :
  (∀ t, (parseBookmarksMap doc).1 !! t = lastTitled t (parseBookmarks doc).1)
  ∧ (parseBookmarksMap doc).2 = (parseBookmarks doc).2.
Proof.
  unfold parseBookmarksMap, parseBookmarks. split.
  - intros t. rewrite eachH3Map_lookup, eachH3_records, app_nil_l.
    destruct (lastTitled _ _); [done|]. apply lookup_empty.
  - apply eachH3_eachH3Map_lines.
Qed.

(** ** When the serialization fails *)

Lemma zoneHours_out offset :
  (24 <= time.zoneHours offset <-> 86400 <= Z.abs offset)%Z.
Proof.
  unfold time.zoneHours.
  rewrite <- (Z.quot_abs offset 60) by done.
  rewrite Z.quot_div_nonneg by lia. change (Z.abs 60) with 60%Z.
  pose proof (Z.div_mod (Z.abs offset) 60 ltac:(done)) as H1.
  pose proof (Z.mod_pos_bound (Z.abs offset) 60 ltac:(done)) as H2.
  pose proof (Z.div_mod (Z.abs offset / 60) 60 ltac:(done)) as H3.
  pose proof (Z.mod_pos_bound (Z.abs offset / 60) 60 ltac:(done)) as H4.
  generalize dependent ((Z.abs offset / 60) mod 60)%Z.
  generalize dependent (Z.abs offset mod 60)%Z.
  generalize dependent (Z.abs offset / 60 / 60)%Z.
  generalize dependent (Z.abs offset / 60)%Z.
  generalize dependent (Z.abs offset). intros; lia.
Qed.

Lemma formatRFC3339_None loc t :
  time.formatRFC3339 loc t = None <-> refused loc t.
Proof.
  unfold time.formatRFC3339, refused, yearOutOfRange, zoneOutOfRange.
  rewrite <- zoneHours_out.
  destruct (Z.ltb_spec (time.year (time.civil loc t)) 0),
           (Z.ltb_spec 9999 (time.year (time.civil loc t))),
           (Z.leb_spec 24 (time.zoneHours (loc t)));
    cbn [orb]; split; try done; try lia; auto.
Qed.

Lemma marshal_time_None loc (o : option Time) (key : string) :
  match o return option (list (string * JSON)) with
  | None => Some []
  | Some t => s ← time.formatRFC3339 loc t; Some [(key, JString s)]
  end = None
  <-> ∃ t, o = Some t ∧ refused loc t.
Proof.
  destruct o as [t|].
  - pose proof (formatRFC3339_None loc t) as Hf.
    destruct (time.formatRFC3339 loc t); simpl.
    + split; [done|]. intros (? & [= <-] & Hy). by apply Hf in Hy.
    + split; [|done]. exists t. split; [done|]. by apply Hf.
  - split; [done|]. by intros (? & ? & _).
Qed.

(** X6.  [json.Marshal] fails on a tree, so that [main] prints the
    conversion error instead of the JSON text, exactly when some node of
    the tree has an [AddAt] or an [UpdateAt] that [Time.MarshalJSON]
    refuses in the location of the machine: its year there is outside
    [0, 9999], or the location is then a day or more away from UTC. *)
Theorem marshal_fails_iff (loc : time.Location) (b : Bookmark) :
  marshal loc b = None
  <-> ∃ n t, n ∈ nodes b ∧ (AddAt n = Some t ∨ UpdateAt n = Some t)
             ∧ refused loc t.
Proof.
  induction b as [b IH] using Bookmark_ind.
  rewrite marshal_unfold, nodes_unfold.
  pose proof (marshal_time_None loc (AddAt b) "addAt") as Ha.
  pose proof (marshal_time_None loc (UpdateAt b) "updateAt") as Hu.
  assert (mapM (marshal loc) (Bookmarks b) = None
          <-> ∃ n t, n ∈ flat_map nodes (Bookmarks b)
                     ∧ (AddAt n = Some t ∨ UpdateAt n = Some t)
                     ∧ refused loc t) as Hk.
  { rewrite mapM_None. clear -IH.
    induction IH as [|c l Hc _ IHl]; cbn [flat_map].
    - rewrite Exists_nil. split; [done|]. by intros (? & ? & ?%elem_of_nil & _).
    - rewrite Exists_cons, Hc, IHl. split.
      + intros [(n & t & ? & ?)|(n & t & ? & ?)]; exists n, t;
          (split; [|done]); apply elem_of_app; auto.
      + intros (n & t & [?|?]%elem_of_app & ?); [left|right]; by exists n, t. }
  split.
  - intros H.
    destruct (mapM (marshal loc) (Bookmarks b)) as [kids|].
    + cbn [mbind option_bind] in H.
      destruct (match AddAt b with None => _ | Some _ => _ end) as [addAt|].
      * cbn [mbind option_bind] in H.
        destruct (match UpdateAt b with None => _ | Some _ => _ end); [done|].
        destruct (proj1 Hu eq_refl) as (t & ? & ?).
        exists b, t. split; [left|auto].
      * destruct (proj1 Ha eq_refl) as (t & ? & ?).
        exists b, t. split; [left|auto].
    + destruct (proj1 Hk eq_refl) as (n & t & ? & ?).
      exists n, t. split; [by right|done].
  - intros (n & t & [->|Hn]%elem_of_cons & Ht & Hy).
    + destruct (mapM (marshal loc) (Bookmarks b)); [|done].
      cbn [mbind option_bind]. destruct Ht as [Ht|Ht].
      * by rewrite (proj2 Ha (ex_intro _ t (conj Ht Hy))).
      * rewrite (proj2 Hu (ex_intro _ t (conj Ht Hy))).
        by destruct (match AddAt b with None => _ | Some _ => _ end).
    + by rewrite (proj2 Hk (ex_intro _ n (ex_intro _ t (conj Hn (conj Ht Hy))))).
Qed.

(** The bounds of the zone: an offset of 23 hours 59 minutes is written,
    an offset of a day is refused, east and west. *)
Example zone_samples :
  time.formatRFC3339 (time.FixedZone 86399) 0 = Some "1970-01-01T23:59:59+23:59"
  ∧ time.formatRFC3339 (time.FixedZone 86400) 0 = None
  ∧ time.formatRFC3339 (time.FixedZone (-86399)) 0 = Some "1969-12-31T00:00:01-23:59"
  ∧ time.formatRFC3339 (time.FixedZone (-86400)) 0 = None
  ∧ time.formatRFC3339 (time.FixedZone 90000) 0 = None
  ∧ time.formatRFC3339 (time.FixedZone 30) 0 = Some "1970-01-01T00:00:30+00:00".
Proof. repeat split; vm_compute; reflexivity. Qed.

(** ** The extractor on bookmark files *)

Lemma nodeAtPath_one ns i : goquery.nodeAtPath ns [i] = ns !! i.
Proof. cbn. by destruct (ns !! i). Qed.

Lemma nodeAtPath_two ns i j rest :
  goquery.nodeAtPath ns (i :: j :: rest)
  = match ns !! i with
    | Some (html.ElementNode _ _ kids) => goquery.nodeAtPath kids (j :: rest)
    | _ => None
    end.
Proof. cbn. by destruct (ns !! i) as [[tag attrs kids|?|?|?]|]. Qed.

Lemma nodeAtPath_snoc ns path i :
  path ≠ [] ->
  goquery.nodeAtPath ns (path ++ [i])
  = match goquery.nodeAtPath ns path with
    | Some (html.ElementNode _ _ kids) => kids !! i
    | _ => None
    end.
Proof.
  revert ns. induction path as [|j rest IH]; intros ns Hne; [done|].
  destruct rest as [|j' rest'].
  - cbn [app]. rewrite nodeAtPath_two, !nodeAtPath_one.
    destruct (ns !! j) as [[tag attrs kids|?|?|?]|]; try done.
    apply nodeAtPath_one.
  - change ((j :: j' :: rest') ++ [i]) with (j :: j' :: (rest' ++ [i])).
    rewrite !nodeAtPath_two.
    destruct (ns !! j) as [[tag attrs kids|?|?|?]|]; try done.
    by apply (IH kids).
Qed.

(** A node is the child of its parent: the node at [i :: base] is the
    child number [i] of the node at [base]. *)
Lemma nodeAt_cons D i base :
  goquery.nodeAt D (i :: base) = goquery.childrenAt D base !! i.
Proof.
  unfold goquery.nodeAt, goquery.childrenAt. destruct base as [|j base'].
  - cbn [rev app]. apply nodeAtPath_one.
  - cbn [rev]. rewrite nodeAtPath_snoc.
    + unfold goquery.nodeAt. cbn [rev].
      by destruct (goquery.nodeAtPath D (rev base' ++ [j]))
        as [[tag attrs kids|?|?|?]|].
    + by destruct (rev base').
Qed.

Lemma childrenAt_element D loc tag attrs kids :
  loc ≠ [] -> goquery.nodeAt D loc = Some (html.ElementNode tag attrs kids) ->
  goquery.childrenAt D loc = kids.
Proof. intros Hne H. unfold goquery.childrenAt. destruct loc; [done|]. by rewrite H. Qed.

Lemma Is_single D loc selector :
  goquery.Is (goquery.mkSelection D [loc]) selector
  = goquery.matchLoc D selector loc.
Proof. unfold goquery.Is. cbn. apply orb_false_r. Qed.

Lemma matchLoc_element D loc selector tag attrs kids :
  goquery.nodeAt D loc = Some (html.ElementNode tag attrs kids) ->
  goquery.matchLoc D selector loc
  = String.eqb tag (goquery.toLowerASCII selector).
Proof. intros H. unfold goquery.matchLoc. by rewrite H. Qed.

Lemma Text_single D loc n :
  goquery.nodeAt D loc = Some n ->
  goquery.Text (goquery.mkSelection D [loc]) = goquery.textOf n.
Proof. intros H. unfold goquery.Text. cbn. rewrite H. apply append_empty_r. Qed.

Lemma textOf_titled tag attrs title :
  goquery.textOf (html.ElementNode tag attrs [html.TextNode title]) = title.
Proof. cbn. apply append_empty_r. Qed.

Lemma Children_single D loc :
  goquery.Children (goquery.mkSelection D [loc])
  = goquery.mkSelection D
      ((fun i => i :: loc) <$> goquery.elementsFrom 0 (goquery.childrenAt D loc)).
Proof. unfold goquery.Children. cbn. by rewrite app_nil_r. Qed.

Lemma Next_single D i up :
  goquery.Next (goquery.mkSelection D [i :: up])
  = goquery.mkSelection D
      ((fun j => j :: up)
         <$> take 1 (List.filter (fun j => (i <? j)%nat)
                       (goquery.elementsFrom 0 (goquery.childrenAt D up)))).
Proof. unfold goquery.Next. cbn [goquery.document goquery.Nodes flat_map]. by rewrite app_nil_r. Qed.

Lemma Prev_single D i up :
  goquery.Prev (goquery.mkSelection D [i :: up])
  = goquery.mkSelection D
      ((fun j => j :: up)
         <$> take 1 (rev (List.filter (fun j => (j <? i)%nat)
                            (goquery.elementsFrom 0 (goquery.childrenAt D up))))).
Proof. unfold goquery.Prev. cbn [goquery.document goquery.Nodes flat_map]. by rewrite app_nil_r. Qed.

Lemma elementsFrom_render k items :
  goquery.elementsFrom k (map netscape.render items) = seq k (length items).
Proof.
  revert k. induction items as [|item items IH]; intros k; [done|].
  cbn [map goquery.elementsFrom length seq]. rewrite IH. by destruct item.
Qed.

Lemma filter_all {A} (f : A -> bool) l :
  (∀ x, x ∈ l -> f x = true) -> List.filter f l = l.
Proof.
  induction l as [|x l IH]; intros H; [done|]. cbn [List.filter].
  rewrite (H x) by left. f_equal. apply IH. intros y Hy. apply H. by right.
Qed.

(** The entries of a rendered list are its [dt] children. *)
Lemma ChildrenFiltered_rendered D dl items other :
  goquery.childrenAt D dl
  = html.ElementNode "p" [] other :: map netscape.render items ->
  goquery.ChildrenFiltered (goquery.mkSelection D [dl]) "DT"
  = goquery.mkSelection D ((fun j => j :: dl) <$> seq 1 (length items)).
Proof.
  intros Hkids. unfold goquery.ChildrenFiltered. rewrite Children_single, Hkids.
  cbn [goquery.document goquery.Nodes goquery.elementsFrom html.isElement app].
  rewrite elementsFrom_render, fmap_cons. cbn [List.filter].
  assert (goquery.matchLoc D "DT" (0 :: dl) = false) as ->.
  { unfold goquery.matchLoc. by rewrite nodeAt_cons, Hkids. }
  f_equal. apply filter_all. intros loc (j & -> & Hj)%list_elem_of_fmap.
  apply elem_of_seq in Hj. unfold goquery.matchLoc.
  rewrite nodeAt_cons, Hkids. destruct j as [|j]; [lia|]. rewrite lookup_cons. cbv beta iota.
  change (map netscape.render items) with (netscape.render <$> items).
  rewrite list_lookup_fmap.
  destruct (items !! j) as [item|] eqn:E.
  - by destruct item.
  - apply lookup_ge_None in E. lia.
Qed.

Lemma childrenAt_cons D i base :
  goquery.childrenAt D (i :: base)
  = match goquery.childrenAt D base !! i with
    | Some (html.ElementNode _ _ kids) => kids
    | _ => []
    end.
Proof. unfold goquery.childrenAt at 1. by rewrite nodeAt_cons. Qed.

Lemma First_cons D loc rest :
  goquery.First (goquery.mkSelection D (loc :: rest)) = goquery.mkSelection D [loc].
Proof. reflexivity. Qed.

Lemma bind_fst {A B} (m : Out A) (k : A -> Out B) : (bind m k).1 = (k m.1).1.
Proof. reflexivity. Qed.

(** The links gathered from the [dt] children of a rendered list are the
    links among its entries, in order. *)
Lemma eachDT_rendered D dl items :
  ∀ k acc,
    (∀ j item, items !! j = Some item ->
               goquery.childrenAt D dl !! (k + j)%nat = Some (netscape.render item)) ->
    (eachDT ((fun loc => goquery.mkSelection D [loc])
               <$> ((fun j => j :: dl) <$> seq k (length items))) acc).1
    = acc ++ linksOf items.
Proof.
  induction items as [|item items IH]; intros k acc H.
  - cbn. by rewrite app_nil_r.
  - cbn [length seq]. rewrite !fmap_cons. cbn [eachDT].
    assert (goquery.childrenAt D dl !! k = Some (netscape.render item)) as Hk.
    { rewrite <- (Nat.add_0_r k). by apply H. }
    assert (∀ j it, items !! j = Some it ->
                    goquery.childrenAt D dl !! (S k + j)%nat
                    = Some (netscape.render it)) as H'.
    { intros j it Hj. replace (S k + j)%nat with (k + S j)%nat by lia.
      by apply H. }
    rewrite Children_single, childrenAt_cons, Hk.
    destruct item as [attrs title|attrs title sub].
    + cbn [netscape.render goquery.elementsFrom html.isElement netscape.blank
           app fmap list_fmap goquery.First goquery.Nodes goquery.document take].
      rewrite First_cons, Is_single.
      assert (goquery.nodeAt D (0 :: k :: dl)
              = Some (html.ElementNode "a" attrs [html.TextNode title])) as Ha.
      { by rewrite nodeAt_cons, childrenAt_cons, Hk. }
      rewrite (matchLoc_element _ _ _ _ _ _ Ha).
      change (String.eqb "a" (goquery.toLowerASCII "A")) with true.
      cbv iota. rewrite bind_fst, IH by done.
      rewrite linkBookmark_fields, !(AttrOr_element _ _ _ _ _ _ _ Ha),
        (Text_single _ _ _ Ha), textOf_titled.
      cbn [linksOf]. by rewrite <- app_assoc.
    + cbn [netscape.render goquery.elementsFrom html.isElement netscape.blank
           app fmap list_fmap goquery.First goquery.Nodes goquery.document take].
      rewrite First_cons, Is_single.
      assert (goquery.nodeAt D (0 :: k :: dl)
              = Some (html.ElementNode "h3" attrs [html.TextNode title])) as Ha.
      { by rewrite nodeAt_cons, childrenAt_cons, Hk. }
      rewrite (matchLoc_element _ _ _ _ _ _ Ha).
      change (String.eqb "h3" (goquery.toLowerASCII "A")) with false.
      cbv iota. cbn [linksOf]. by apply IH.
Qed.

Lemma elementsFrom_ge k ns j : j ∈ goquery.elementsFrom k ns -> (k <= j)%nat.
Proof.
  revert k. induction ns as [|n ns IH]; intros k; cbn [goquery.elementsFrom].
  - by intros ?%elem_of_nil.
  - intros [Hj|Hj%IH]%elem_of_app; [|lia].
    destruct (html.isElement n); [|by apply elem_of_nil in Hj].
    apply list_elem_of_singleton in Hj. lia.
Qed.

Lemma filter_none {A} (f : A -> bool) l :
  (∀ x, x ∈ l -> f x = false) -> List.filter f l = [].
Proof.
  induction l as [|x l IH]; intros H; [done|]. cbn [List.filter].
  rewrite (H x) by left. apply IH. intros y Hy. apply H. by right.
Qed.

(** The record of a folder header in a rendered list.  The list is the
    third child of the node at [up], after an element [X] and white
    space: [X] is the header of the enclosing folder, or the [h1] of the
    document. *)
Lemma folderBookmark_rendered D up X tail kidsdl i attrs title items :
  goquery.childrenAt D up
  = X :: netscape.blank :: html.ElementNode "dl" [] kidsdl :: tail ->
  html.isElement X = true ->
  kidsdl !! i = Some (netscape.render (netscape.Folder attrs title items)) ->
  (folderBookmark (goquery.mkSelection D [0 :: i :: 2 :: up])).1
  = folderRecord attrs title
      (if goquery.matchNode "H3" X then goquery.textOf X else "")
      (linksOf items).
Proof.
  intros Hup HX Hi.
  assert (goquery.childrenAt D (2 :: up) = kidsdl) as Hdl.
  { by rewrite childrenAt_cons, Hup. }
  assert (goquery.nodeAt D (2 :: up)
          = Some (html.ElementNode "dl" [] kidsdl)) as Hdln.
  { by rewrite nodeAt_cons, Hup. }
  assert (goquery.nodeAt D (0 :: up) = Some X) as HXn.
  { by rewrite nodeAt_cons, Hup. }
  assert (goquery.childrenAt D (i :: 2 :: up)
          = [html.ElementNode "h3" attrs [html.TextNode title]; netscape.blank;
             html.ElementNode "dl" []
               (html.ElementNode "p" [] [netscape.blank]
                :: map netscape.render items);
             html.ElementNode "p" [] [netscape.blank]]) as Hdt.
  { by rewrite childrenAt_cons, Hdl, Hi. }
  assert (goquery.nodeAt D (0 :: i :: 2 :: up)
          = Some (html.ElementNode "h3" attrs [html.TextNode title])) as Hh.
  { by rewrite nodeAt_cons, Hdt. }
  assert (goquery.nodeAt D (2 :: i :: 2 :: up)
          = Some (html.ElementNode "dl" []
                    (html.ElementNode "p" [] [netscape.blank]
                     :: map netscape.render items))) as Hsubn.
  { by rewrite nodeAt_cons, Hdt. }
  assert (goquery.childrenAt D (2 :: i :: 2 :: up)
          = html.ElementNode "p" [] [netscape.blank]
            :: map netscape.render items) as Hsub.
  { by rewrite childrenAt_cons, Hdt. }
  unfold folderBookmark. rewrite !bind_fst. unfold ret. cbn [fst].
  change (goquery.mkSelection D [0 :: i :: 2 :: up])
    with (goquery.mkSelection D (@cons goquery.Loc (0 :: i :: 2 :: up) [])).
  rewrite !(AttrOr_element _ _ _ _ _ _ _ Hh), (Text_single _ _ _ Hh),
    textOf_titled.
  unfold folderRecord, attrOr. f_equal.
  - change (goquery.Parent (goquery.Parent
              (goquery.mkSelection D [0 :: i :: 2 :: up])))
      with (goquery.mkSelection D (@cons goquery.Loc (2 :: up) [])).
    rewrite Is_single, (matchLoc_element _ _ _ _ _ _ Hdln).
    change (String.eqb "dl" (goquery.toLowerASCII "DL")) with true.
    rewrite andb_true_l, Prev_single, Hup.
    cbn [goquery.elementsFrom]. rewrite HX.
    cbn [html.isElement netscape.blank app List.filter Nat.ltb Nat.leb].
    rewrite filter_none.
    + cbn [rev app take fmap list_fmap].
      rewrite Is_single. erewrite Text_single by exact HXn.
      unfold goquery.matchLoc. by rewrite HXn.
    + intros j Hj%elementsFrom_ge. apply Nat.leb_gt. lia.
  - rewrite Next_single, Hdt.
    change ((fun j => j :: i :: 2 :: up)
              <$> take 1 (List.filter (fun j => (0 <? j)%nat)
                            (goquery.elementsFrom 0
                               [html.ElementNode "h3" attrs [html.TextNode title];
                                netscape.blank;
                                html.ElementNode "dl" []
                                  (html.ElementNode "p" [] [netscape.blank]
                                   :: map netscape.render items);
                                html.ElementNode "p" [] [netscape.blank]])))
      with (@cons goquery.Loc (2 :: i :: 2 :: up) []).
    rewrite Is_single, (matchLoc_element _ _ _ _ _ _ Hsubn).
    change (String.eqb "dl" (goquery.toLowerASCII "DL")) with true. cbv iota.
    rewrite (ChildrenFiltered_rendered _ _ items [netscape.blank]) by done.
    unfold goquery.each. cbn [goquery.document goquery.Nodes].
    rewrite eachDT_rendered; [done|].
    intros j item Hj. rewrite Hsub. cbn [Nat.add]. rewrite lookup_cons. cbv beta iota.
    change (map netscape.render items) with (netscape.render <$> items).
    by rewrite list_lookup_fmap, Hj.
Qed.

Lemma Item_ind (P : netscape.Item -> Prop) :
  (∀ attrs title, P (netscape.Link attrs title)) ->
  (∀ attrs title items, Forall P items -> P (netscape.Folder attrs title items)) ->
  ∀ item, P item.
Proof.
  intros Hl Hf. fix IH 1. intros [attrs title|attrs title items]; [apply Hl|].
  apply Hf. induction items as [|it items IHi]; constructor; [apply IH|apply IHi].
Qed.

Lemma recordsRead_list D up X tail kidsdl items :
  Forall recordsRead items ->
  goquery.childrenAt D up
  = X :: netscape.blank :: html.ElementNode "dl" [] kidsdl :: tail ->
  html.isElement X = true ->
  ∀ k, (∀ j item, items !! j = Some item ->
                  kidsdl !! (k + j)%nat = Some (netscape.render item)) ->
       (fun loc => (folderBookmark (goquery.mkSelection D [loc])).1)
         <$> goquery.matchAllFrom "H3" (2 :: up) k (map netscape.render items)
       = flat_map (records (titleBefore X)) items.
Proof.
  intros Hall Hup HX. induction Hall as [|item items Hitem _ IH]; intros k H.
  - done.
  - cbn [map goquery.matchAllFrom flat_map]. rewrite fmap_app. f_equal.
    + apply (Hitem D up X tail kidsdl k Hup HX).
      rewrite <- (Nat.add_0_r k). by apply H.
    + apply IH. intros j it Hj.
      replace (S k + j)%nat with (k + S j)%nat by lia. by apply H.
Qed.

Lemma recordsRead_all item : recordsRead item.
Proof.
  induction item as [attrs title|attrs title items IH] using Item_ind;
    intros D up X tail kidsdl i Hup HX Hi.
  - done.
  - assert (goquery.childrenAt D (i :: 2 :: up)
            = [html.ElementNode "h3" attrs [html.TextNode title]; netscape.blank;
               html.ElementNode "dl" []
                 (html.ElementNode "p" [] [netscape.blank]
                  :: map netscape.render items);
               html.ElementNode "p" [] [netscape.blank]]) as Hdt.
    { assert (goquery.childrenAt D (2 :: up) = kidsdl) as Hdl
        by (by rewrite childrenAt_cons, Hup).
      by rewrite childrenAt_cons, Hdl, Hi. }
    cbn [netscape.render]. rewrite matchAll_element.
    cbn [goquery.matchAllFrom]. rewrite !matchAll_element.
    cbn [goquery.matchAllFrom goquery.matchAll goquery.matchNode netscape.blank].
    change (String.eqb "dt" (goquery.toLowerASCII "H3")) with false.
    change (String.eqb "h3" (goquery.toLowerASCII "H3")) with true.
    change (String.eqb "dl" (goquery.toLowerASCII "H3")) with false.
    change (String.eqb "p" (goquery.toLowerASCII "H3")) with false.
    cbv iota. cbn [app]. rewrite !app_nil_r, fmap_cons. cbn [records]. f_equal.
    + by apply (folderBookmark_rendered D up X tail kidsdl i).
    + rewrite (recordsRead_list D (i :: 2 :: up) _ _ _ items IH Hdt eq_refl).
      * unfold titleBefore. cbn [goquery.matchNode].
        change (String.eqb "h3" (goquery.toLowerASCII "H3")) with true.
        cbv iota. by rewrite textOf_titled.
      * intros j item Hj. cbn [Nat.add]. rewrite lookup_cons. cbv beta iota.
        change (map netscape.render items) with (netscape.render <$> items).
        by rewrite list_lookup_fmap, Hj.
Qed.

(** The records read from a bookmark file. *)
Lemma parseBookmarks_records top :
  (parseBookmarks (netscape.document top)).1 = flat_map (records "") top.
Proof.
  unfold parseBookmarks. rewrite eachH3_records. cbn [app].
  unfold goquery.each, goquery.Find, netscape.document, goquery.NewDocument.
  cbn [goquery.document goquery.Nodes flat_map goquery.childrenAt].
  rewrite app_nil_r, <- list_fmap_compose.
  cbn [goquery.matchAllFrom]. rewrite !matchAll_element.
  cbn [goquery.matchAllFrom]. rewrite !matchAll_element.
  cbn [goquery.matchAllFrom]. rewrite !matchAll_element.
  cbn [goquery.matchAllFrom goquery.matchAll goquery.matchNode netscape.blank].
  change (String.eqb "html" (goquery.toLowerASCII "H3")) with false.
  change (String.eqb "head" (goquery.toLowerASCII "H3")) with false.
  change (String.eqb "meta" (goquery.toLowerASCII "H3")) with false.
  change (String.eqb "title" (goquery.toLowerASCII "H3")) with false.
  change (String.eqb "body" (goquery.toLowerASCII "H3")) with false.
  change (String.eqb "h1" (goquery.toLowerASCII "H3")) with false.
  change (String.eqb "dl" (goquery.toLowerASCII "H3")) with false.
  change (String.eqb "p" (goquery.toLowerASCII "H3")) with false.
  cbv iota. cbn [app]. rewrite !app_nil_r.
  set (D := [html.DoctypeNode _; _]).
  apply (recordsRead_list D [1; 1]%nat
           (html.ElementNode "h1" [] [html.TextNode "Bookmarks"])
           [html.ElementNode "p" [] [netscape.blank]]
           (html.ElementNode "p" [] [netscape.blank] :: map netscape.render top)).
  - apply Forall_forall. intros item _. apply recordsRead_all.
  - reflexivity.
  - reflexivity.
  - intros j item Hj. cbn [Nat.add]. rewrite lookup_cons. cbv beta iota.
    change (map netscape.render top) with (netscape.render <$> top).
    by rewrite list_lookup_fmap, Hj.
Qed.

(** ** From a bookmark file to its tree *)

Lemma matching_app t l k : matching t (l ++ k) = matching t l ++ matching t k.
Proof. apply filter_app. Qed.

Lemma matching_none t bs :
  (∀ b, b ∈ bs -> Parent b ≠ t) -> matching t bs = [].
Proof.
  induction bs as [|b bs IH]; intros H; [done|]. rewrite matching_cons.
  destruct (String.eqb_spec (Parent b) t) as [E|_].
  - destruct (H b); [left|done].
  - apply IH. intros c Hc. apply H. by right.
Qed.

Lemma titles_cons item items :
  titles (item :: items) = (folders item).*1 ++ titles items.
Proof. unfold titles. cbn [flat_map]. by rewrite fmap_app. Qed.

Lemma titles_folder attrs title items :
  (folders (netscape.Folder attrs title items)).*1 = title :: titles items.
Proof. reflexivity. Qed.

Lemma folders_titles item items t its :
  item ∈ items -> (t, its) ∈ folders item -> t ∈ titles items.
Proof.
  intros Hitem Hin. unfold titles. apply list_elem_of_fmap. exists (t, its).
  split; [done|]. apply list_elem_of_In, in_flat_map. exists item.
  split; by apply list_elem_of_In.
Qed.

(** The parent named by a record of an entry is the title passed in or
    the title of one of its folders. *)
Lemma records_parents item :
  ∀ p b, b ∈ records p item -> Parent b = p ∨ Parent b ∈ (folders item).*1.
Proof.
  induction item as [attrs title|attrs title items IH] using Item_ind;
    intros p b Hb.
  - by apply elem_of_nil in Hb.
  - cbn [records] in Hb. apply elem_of_cons in Hb as [->|Hb]; [by left|].
    right. rewrite titles_folder.
    apply list_elem_of_In, in_flat_map in Hb as (it & Hit%list_elem_of_In & Hb).
    apply list_elem_of_In in Hb.
    rewrite Forall_forall in IH.
    destruct (IH it Hit title b Hb) as [->|Hin]; [left|right].
    apply list_elem_of_fmap in Hin as ([t its] & -> & Hin).
    by apply (folders_titles it items t its).
Qed.

Lemma records_list_parents items p b :
  b ∈ flat_map (records p) items -> Parent b = p ∨ Parent b ∈ titles items.
Proof.
  intros (it & Hit%list_elem_of_In & Hb%list_elem_of_In)%list_elem_of_In%in_flat_map.
  destruct (records_parents it p b Hb) as [->|Hin]; [by left|right].
  apply list_elem_of_fmap in Hin as ([t its] & -> & Hin).
  by apply (folders_titles it items t its).
Qed.

(** The records that name a title no folder of the list has. *)
Lemma matching_foreign t p items :
  t ≠ p -> t ∉ titles items -> matching t (flat_map (records p) items) = [].
Proof.
  intros Hp Ht. apply matching_none. intros b Hb E.
  destruct (records_list_parents items p b Hb) as [E'|Hin]; congruence.
Qed.

(** The records that name the title the list was read under. *)
Lemma matching_heads t items :
  t ∉ titles items -> matching t (flat_map (records t) items) = heads t items.
Proof.
  induction items as [|item items IH]; intros Ht; [done|].
  rewrite titles_cons in Ht. apply not_elem_of_app in Ht as [Hitem Hrest].
  cbn [flat_map]. rewrite matching_app, IH by done. unfold heads at 2.
  cbn [flat_map]. f_equal. destruct item as [attrs title|attrs title its]; [done|].
  rewrite titles_folder in Hitem. apply not_elem_of_cons in Hitem as [Hne Hits].
  cbn [records]. rewrite matching_cons. cbn [folderRecord Parent].
  rewrite String.eqb_refl. f_equal. by apply matching_foreign.
Qed.

Lemma ownChildren_list items :
  Forall ownChildren items ->
  ∀ p t its, t ≠ p -> NoDup (titles items) -> (t, its) ∈ flat_map folders items ->
             matching t (flat_map (records p) items) = heads t its.
Proof.
  induction 1 as [|item items Hitem _ IH]; intros p t its Hp Hnd Hin.
  - by apply elem_of_nil in Hin.
  - rewrite titles_cons in Hnd. apply NoDup_app in Hnd as (Hnd1 & Hdisj & Hnd2).
    cbn [flat_map] in *. rewrite matching_app.
    apply elem_of_app in Hin as [Hin|Hin].
    + assert (t ∉ titles items) as Hrest.
      { apply Hdisj, list_elem_of_fmap. by exists (t, its). }
      rewrite (Hitem p t its), matching_foreign by done. apply app_nil_r.
    + assert (t ∉ titles [item]) as Hfirst.
      { unfold titles. cbn [flat_map]. rewrite app_nil_r. intros Hin1.
        apply (Hdisj t Hin1), list_elem_of_fmap. by exists (t, its). }
      rewrite (IH p t its) by done.
      rewrite <- (app_nil_r (records p item)).
      change (records p item ++ []) with (flat_map (records p) [item]).
      by rewrite matching_foreign.
Qed.

Lemma ownChildren_all item : ownChildren item.
Proof.
  induction item as [attrs title|attrs title items IH] using Item_ind;
    intros p t its Hp Hnd Hin.
  - by apply elem_of_nil in Hin.
  - rewrite titles_folder in Hnd. apply NoDup_cons in Hnd as [Hfresh Hnd].
    cbn [folders records] in *. rewrite matching_cons. cbn [folderRecord Parent].
    destruct (String.eqb_spec p t) as [E|_]; [congruence|].
    apply elem_of_cons in Hin as [[= -> ->]|Hin].
    + by apply matching_heads.
    + apply ownChildren_list; [done| |done..].
      intros ->. apply Hfresh, list_elem_of_fmap. by exists (title, its).
Qed.

(** In the records of a file whose folder titles are distinct and not
    empty, the records that name the title of a folder are the records of
    its subfolders, in order. *)
Lemma matching_document top t its :
  NoDup (titles top) -> "" ∉ titles top -> (t, its) ∈ flat_map folders top ->
  matching t (flat_map (records "") top) = heads t its.
Proof.
  intros Hnd Hne Hin. apply ownChildren_list; [|  |done..].
  - apply Forall_forall. intros item _. apply ownChildren_all.
  - intros ->. apply Hne, list_elem_of_fmap. by exists ("", its).
Qed.

Lemma buildsTree_list items parent bs fuel :
  Forall buildsTree items ->
  (∀ t its, (t, its) ∈ flat_map folders items -> matching t bs = heads t its) ->
  max_list (map depth items) <= fuel ->
  Forall2 (fun b tree => buildSubTree fuel b bs = Some tree)
          (heads parent items) (flat_map (treeOf parent) items).
Proof.
  induction 1 as [|item items Hitem _ IH]; intros Hm Hfuel; [constructor|].
  change (depth item `max` max_list (map depth items) <= fuel) in Hfuel.
  unfold heads. cbn [flat_map].
  apply Forall2_app.
  - rewrite <- (app_nil_r (match item with netscape.Link _ _ => _ | _ => _ end)).
    apply (Hitem parent bs fuel); [|lia].
    intros t its Hin. apply Hm. cbn [flat_map]. apply elem_of_app. by left.
  - apply IH; [|lia].
    intros t its Hin. apply Hm. cbn [flat_map]. apply elem_of_app. by right.
Qed.

Lemma buildsTree_all item : buildsTree item.
Proof.
  induction item as [attrs title|attrs title items IH] using Item_ind;
    intros parent bs fuel Hm Hfuel.
  - constructor.
  - cbn [depth] in Hfuel. destruct fuel as [|fuel]; [lia|].
    unfold heads. cbn [flat_map treeOf app]. constructor; [|constructor].
    rewrite buildSubTree_S. cbn [folderRecord Title].
    rewrite (Hm title items) by left.
    erewrite mapM_Some_2; [done|].
    apply buildsTree_list; [done| |lia].
    intros t its Hin. apply Hm. by right.
Qed.

(** The build on the records of a file: the tree of its first folder. *)
Lemma buildTree_records attrs title items rest fuel :
  let top := netscape.Folder attrs title items :: rest in
  NoDup (titles top) -> "" ∉ titles top ->
  depth (netscape.Folder attrs title items) <= fuel ->
  buildTree fuel (flat_map (records "") top)
  = Some ([], withKids (folderRecord attrs title "" (linksOf items))
                       (flat_map (treeOf title) items)).
Proof.
  intros top Hnd Hne Hfuel. unfold buildTree.
  assert (findRootFolder (flat_map (records "") top)
          = Some (folderRecord attrs title "" (linksOf items))) as -> by done.
  pose proof (buildsTree_all (netscape.Folder attrs title items) ""
                (flat_map (records "") top) fuel) as Hb.
  unfold heads in Hb. cbn [flat_map treeOf app] in Hb.
  apply Forall2_cons_1 in Hb as [-> _]; [done| |done].
  intros t its Hin. apply matching_document; [done..|].
  unfold top. cbn [flat_map]. apply elem_of_app. by left.
Qed.

(** X7.  On a bookmark file the extractor returns, for each folder in
    document order, one record: the title and the dates of its header,
    the title of the folder around it (none at the top), and its own
    links as children; links give no record of their own.  The revision
    with a map holds, under each title, the last of these records that
    bears it. *)
Theorem extractor_on_bookmark_file (top : list netscape.Item) :
  (parseBookmarks (netscape.document top)).1 = flat_map (records "") top
  ∧ ∀ t, (parseBookmarksMap (netscape.document top)).1 !! t
         = lastTitled t (flat_map (records "") top).
Proof.
  split; [apply parseBookmarks_records|]. intros t.
  rewrite <- parseBookmarks_records. unfold parseBookmarksMap, parseBookmarks.
  rewrite eachH3Map_lookup, eachH3_records, app_nil_l.
  destruct (lastTitled _ _); [done|]. apply lookup_empty.
Qed.

(** X8.  From a bookmark file to its tree.  When the file starts with a
    folder, and the titles of its folders are distinct and not empty, the
    build on the extracted records returns, once the depth of recursion
    allowed reaches the nesting depth of that folder, the tree of that
    folder: each folder carries its links first, then its subfolders in
    document order; the folders that follow the first at the top are
    left out. *)
Theorem bookmark_file_tree (attrs : list (string * string)) (title : string)
        (items rest : list netscape.Item) (fuel : nat) :
  NoDup (titles (netscape.Folder attrs title items :: rest)) ->
  "" ∉ titles (netscape.Folder attrs title items :: rest) ->
  depth (netscape.Folder attrs title items) <= fuel ->
  buildTree fuel
    (parseBookmarks
       (netscape.document (netscape.Folder attrs title items :: rest))).1
  = Some ([], withKids (folderRecord attrs title "" (linksOf items))
                       (flat_map (treeOf title) items)).
Proof.
  intros Hnd Hne Hfuel. rewrite parseBookmarks_records.
  by apply buildTree_records.
Qed.

Lemma bookmark_file_tree_witness :
  buildTree 2 (parseBookmarks (netscape.document sampleTop)).1
  = Some ([], mkBookmark "Bookmarks bar" "" ""
                [linkRecord [("href", "https://a.example")] "a";
                 mkBookmark "News" "" "Bookmarks bar"
                   [linkRecord [("href", "https://c.example")] "c"] None None]
                (Some 1634454000%Z) None).
Proof.
  apply (bookmark_file_tree [("add_date", "1634454000")] "Bookmarks bar"
           [netscape.Link [("href", "https://a.example")] "a";
            netscape.Folder [] "News"
              [netscape.Link [("href", "https://c.example")] "c"]]
           [netscape.Folder [] "Other" []] 2).
  - apply (bool_decide_unpack _). vm_compute. reflexivity.
  - apply (bool_decide_unpack _). vm_compute. reflexivity.
  - simpl. lia.
Defined.

(** X9.  Whatever the document, the extractor returns one record for
    each [H3] element, and every record is a folder record: it has no
    URL, and its children are links, without children and without parent
    title.  Nesting only comes from the build. *)
Theorem extracted_records_shape (doc : goquery.Selection) :
  length (parseBookmarks doc).1 = length (goquery.Nodes (goquery.Find doc "H3"))
  ∧ Forall (fun b => URL b = ""
                     ∧ Forall (fun c => Parent c = "" ∧ Bookmarks c = [])
                              (Bookmarks b))
           (parseBookmarks doc).1.
Proof.
  unfold parseBookmarks. rewrite eachH3_records, app_nil_l. split.
  - unfold goquery.each. by rewrite !length_fmap.
  - apply Forall_fmap, Forall_forall. intros h _. split; [done|].
    apply folderBookmark_links.
Qed.

(** X10.  Without a root folder [main] does not stop: after the lines of
    the extractor and the notice of [buildTree], it prints the JSON text
    of the zero [Bookmark], an object with an empty title, in every
    location and without any recursion. *)
Theorem main_without_root (Local : time.Location) (fuel : nat)
        (doc : goquery.Selection) :
  findRootFolder (parseBookmarks doc).1 = None ->
  main Local fuel doc
  = Some ((parseBookmarks doc).2
          ++ [LText "root folder not found";
              LJSON (JObject [("title", JString "")])]).
Proof.
  intros Hroot. unfold main, mainFrom, buildTree. by rewrite Hroot.
Qed.

Lemma main_without_root_witness :
  main (time.FixedZone 28800) 0 (netscape.document [netscape.Link [] "a"])
  = Some [LText "root folder not found";
          LJSON (JObject [("title", JString "")])].
Proof.
  apply (main_without_root (time.FixedZone 28800) 0
           (netscape.document [netscape.Link [] "a"])).
  vm_compute. reflexivity.
Defined.
